(** * dcos-e2e: image build pipeline, artifact variant probe, node reference
      resolution

    A shallow embedding of

    - [src/dcos_e2e/backends/_docker/_docker_build.py]
      ([_base_dockerfile], [_docker_dockerfile], [build_docker_image]),
    - [src/cli/_utils.py] ([is_enterprise]),
    - [src/cli/_validators.py] ([validate_node_reference],
      [validate_variant]).

    Python text is modelled by [string], one character per code point;
    [str.splitlines] is exact on text whose code points are below 256.
    [str.upper] and [json.loads] are parameters of the code that calls them;
    the worked examples run it with [ascii_upper] and with the reference
    reader [Json.loads].  Dictionaries and the image store are [gmap]s.
    Code that raises is modelled with a sum type of results, code that
    talks to the Docker daemon or to the file system threads the state of
    that outside world explicitly. *)

From stdpp Require Import base option list gmap strings sets.
From Stdlib Require Import Ascii String.

Local Open Scope string_scope.

(** ** Enumerations used by the build code *)

(** Modelled from the spec: the declaration [dcos_e2e/distributions.py] is
    not among the sources.  The members are the ones the sources name:
    [CENTOS_7] and [COREOS] in [_docker_build.py], [RHEL_7] in the AWS
    distribution tests. *)
Inductive Distribution : Type :=
| CENTOS_7
| COREOS
| RHEL_7.

(** Modelled from the spec: the declaration [dcos_e2e/docker_versions.py] is
    not among the sources.  The three named members are the ones
    [build_docker_image] lists; [v_unlisted] stands for any other value a
    caller hands over as [docker_version] (Python does not check the
    annotation at run time). *)
Inductive DockerVersion : Type :=
| v1_11_2
| v1_13_1
| v17_12_1_ce
| v_unlisted (name : string).

#[global] Instance Distribution_eq_dec : EqDecision Distribution.
Proof. solve_decision. Defined.

#[global] Instance DockerVersion_eq_dec : EqDecision DockerVersion.
Proof. solve_decision. Defined.

(** ** Exceptions and results *)

(** The key a [KeyError] reports. *)
Inductive pykey : Type :=
| KDistribution (d : Distribution)
| KDockerVersion (v : DockerVersion)
| KStr (s : string).

(** The exceptions the modelled code can raise. *)
Inductive exn : Type :=
| KeyError (key : pykey)
| TypeError
| JSONDecodeError
| BuildError
| CalledProcessError (returncode : Z) (stderr : string)
| FileExistsError (path : string)
| FileNotFoundError (path : string)
| UnicodeDecodeError
| BadParameter (message : string).

Inductive result (A : Type) : Type :=
| Ok (a : A)
| Raise (e : exn).
Arguments Ok {A} a.
Arguments Raise {A} e.

Definition is_ok {A} (r : result A) : bool :=
  match r with Ok _ => true | Raise _ => false end.

(** A computation over an outside world [W] that may raise.  The world is
    returned on both paths: what was done before the exception stays done. *)
Definition M (W A : Type) : Type := W -> result A * W.

Definition ret {W A} (a : A) : M W A := fun w => (Ok a, w).

Definition raise {W A} (e : exn) : M W A := fun w => (Raise e, w).

Definition bind {W A B} (m : M W A) (k : A -> M W B) : M W B :=
  fun w =>
    match m w with
    | (Ok a, w') => k a w'
    | (Raise e, w') => (Raise e, w')
    end.

(** [try: m except h]: run the handler on the exceptions it accepts
    ([h e = Some _]), let the others through. *)
Definition try_except {W A} (m : M W A) (h : exn -> option (M W A)) : M W A :=
  fun w =>
    match m w with
    | (Ok a, w') => (Ok a, w')
    | (Raise e, w') =>
        match h e with
        | Some handler => handler w'
        | None => (Raise e, w')
        end
    end.

Definition lift_result {W A} (r : result A) : M W A := fun w => (r, w).

Declare Scope py_scope.
Delimit Scope py_scope with py.
Notation "'do' x <- m ;; k" := (bind m (fun x => k))
  (at level 10, x name, m at level 99, k at level 200) : py_scope.
Notation "'run' m ;; k" := (bind m (fun _ => k))
  (at level 10, m at level 99, k at level 200) : py_scope.

(** ** Text and path operations of Python *)

Module Text.

(** The double quote character, and a string of it. *)
Definition dquote_char : ascii := "034"%char.
Definition dquote : string := String dquote_char "".

(** [s.startswith(p)]. *)
Fixpoint startswith (p s : string) : bool :=
  match p, s with
  | EmptyString, _ => true
  | String a p', String b s' =>
      if Ascii.eqb a b then startswith p' s' else false
  | String _ _, EmptyString => false
  end.

(** [sub in s] on strings. *)
Fixpoint contains (sub s : string) : bool :=
  if startswith sub s then true
  else match s with
       | EmptyString => false
       | String _ s' => contains sub s'
       end.

(** The line boundaries of [str.splitlines] among the code points below 256:
    LF, VT, FF, CR, FS, GS, RS and NEL. *)
Definition is_linebreak (c : ascii) : bool :=
  let n := nat_of_ascii c in
  (Nat.leb 10 n && Nat.leb n 13) || (Nat.leb 28 n && Nat.leb n 30)
  || Nat.eqb n 133.

Definition is_CR (c : ascii) : bool := Nat.eqb (nat_of_ascii c) 13.
Definition is_LF (c : ascii) : bool := Nat.eqb (nat_of_ascii c) 10.

(** [s.splitlines()]: lines without their terminators; CR LF is one
    terminator; a terminator at the very end opens no further line. *)
Fixpoint splitlines (s : string) : list string :=
  match s with
  | EmptyString => []
  | String c s' =>
      if is_linebreak c then
        EmptyString ::
          (if is_CR c then
             match s' with
             | String c' s'' =>
                 if is_LF c' then splitlines s'' else splitlines s'
             | EmptyString => []
             end
           else splitlines s')
      else
        match splitlines s' with
        | [] => [String c EmptyString]
        | l :: ls => String c l :: ls
        end
  end.

(** [sep.join(ls)]. *)
Definition join (sep : string) (ls : list string) : string :=
  String.concat sep ls.

(** [str.upper] on ASCII text. *)
Definition ascii_upper_char (c : ascii) : ascii :=
  let n := nat_of_ascii c in
  if Nat.leb 97 n && Nat.leb n 122 then ascii_of_nat (n - 32) else c.

Fixpoint ascii_upper (s : string) : string :=
  match s with
  | EmptyString => EmptyString
  | String c s' => String (ascii_upper_char c) (ascii_upper s')
  end.

(** Test data is written with apostrophes where the text has double
    quotes. *)
Fixpoint q (s : string) : string :=
  match s with
  | EmptyString => EmptyString
  | String c s' =>
      String (if Ascii.eqb c "'"%char then dquote_char else c) (q s')
  end.

(** [Path.__truediv__]. *)
Definition path_join (p q : string) : string := p ++ "/" ++ q.

(** Two notions the statements below use: [s] begins with [p]; [sub] occurs
    in [s]. *)
Definition starts_with (p s : string) : Prop := exists t, s = p ++ t.

Definition occurs_in (sub s : string) : Prop :=
  exists a b, s = a ++ sub ++ b.

End Text.

(** ** The image build pipeline ([_docker_build.py]) *)

Module DockerBuild.

Import Text.

(** Keyword arguments of one [client.images.build] call. *)
Record BuildCall : Type := mkBuildCall {
  bc_path : string;
  bc_rm : bool;
  bc_forcerm : bool;
  bc_tag : string;
  bc_buildargs : gmap string string
}.

(** Identifier of a built image. *)
Definition ImageId : Type := N.

(** The Docker daemon as the build code sees it: the tags of the local image
    store and the build requests received so far. *)
Record Daemon : Type := mkDaemon {
  image_store : gmap string ImageId;
  build_log : list BuildCall
}.

(** [dcos_docker_distros] of [_base_dockerfile]. *)
Definition dcos_docker_distros (d : Distribution) : option string :=
  match d with
  | CENTOS_7 => Some "centos-7"
  | COREOS => Some "coreos"
  | RHEL_7 => None
  end.

(** [docker_versions] of [build_docker_image]. *)
Definition docker_versions (v : DockerVersion) : option string :=
  match v with
  | v1_11_2 => Some "1.11.2"
  | v1_13_1 => Some "1.13.1"
  | v17_12_1_ce => Some "17.12.1-ce"
  | v_unlisted _ => None
  end.

Section Client.

(** Directory of [_docker_build.py] ([current_parent]). *)
Variable current_parent : string.

(** What the daemon answers to a build request given its store: the image
    it built, or [None] when the build fails ([docker.errors.BuildError]). *)
Variable daemon_build : BuildCall -> gmap string ImageId -> option ImageId.

(** [client.images.build] with keyword arguments [call]: the request
    reaches the daemon; a successful build puts the image under the
    requested tag, creating or overwriting it; a failed one raises and tags
    nothing. *)
Definition images_build (call : BuildCall) : M Daemon unit :=
  fun d =>
    let d' := mkDaemon (image_store d) (build_log d ++ [call])%list in
    match daemon_build call (image_store d) with
    | Some img => (Ok tt, mkDaemon (<[bc_tag call := img]> (image_store d))
                                   (build_log d'))
    | None => (Raise BuildError, d')
    end.

Definition _base_dockerfile (linux_distribution : Distribution)
  : result string :=
  match dcos_docker_distros linux_distribution with
  | None => Raise (KeyError (KDistribution linux_distribution))
  | Some distro_path_segment =>
      let dockerfiles :=
        path_join (path_join (path_join current_parent "resources")
                             "dockerfiles") "base" in
      Ok (path_join dockerfiles distro_path_segment)
  end.

Definition _docker_dockerfile : string :=
  path_join (path_join (path_join current_parent "resources") "dockerfiles")
            "base-docker".

(** The two requests [build_docker_image] is written to send. *)
Definition base_call (base_dockerfile tag : string) : BuildCall :=
  mkBuildCall base_dockerfile true true (tag ++ ":base") ∅.

Definition docker_call (tag version : string) : BuildCall :=
  mkBuildCall _docker_dockerfile true true tag
              {[ "DOCKER_VERSION" := version ]}.

(** [build_docker_image].  The client is the one [docker.from_env] returned.
    The version table is subscripted while the arguments of the second
    [build] call are evaluated, that is after the first call returned. *)
Definition build_docker_image (tag : string)
    (linux_distribution : Distribution) (docker_version : DockerVersion)
  : M Daemon unit :=
  (let base_tag := tag ++ ":base" in
   do base_dockerfile <- lift_result (_base_dockerfile linux_distribution) ;;
   let docker_dockerfile := _docker_dockerfile in
   run images_build (mkBuildCall base_dockerfile true true base_tag ∅) ;;
   do version <- match docker_versions docker_version with
              | Some s => ret s
              | None => raise (KeyError (KDockerVersion docker_version))
              end ;;
   images_build (mkBuildCall docker_dockerfile true true tag
                             {[ "DOCKER_VERSION" := version ]}))%py.

End Client.

(** The image store holds the same thing under [tag] before and after. *)
Definition untouched (tag : string) (before after : Daemon) : Prop :=
  image_store after !! tag = image_store before !! tag.

(** Worked example: a daemon under which every build succeeds and yields
    image 7, and a daemon state without images. *)
Definition obliging_daemon
  : BuildCall -> gmap string ImageId -> option ImageId :=
  fun _ _ => Some 7%N.

Definition empty_daemon : Daemon := mkDaemon ∅ [].

End DockerBuild.

(** ** The values [json.loads] returns *)

#[warning="-register-all"]
Inductive pyval : Type :=
| PyNone
| PyBool (b : bool)
| PyInt (n : Z)
| PyFloat (lexeme : string)
| PyStr (s : string)
| PyList (l : list pyval)
| PyDict (d : gmap string pyval).

(** [v == s] for a string [s]: values of other types are unequal to it. *)
Definition py_eq_str (v : pyval) (s : string) : bool :=
  match v with
  | PyStr t => String.eqb t s
  | _ => false
  end.

(** [v[k]] for a string key [k]: a dictionary is looked up, every other
    JSON value refuses a string subscript. *)
Definition py_getitem (v : pyval) (k : string) : result pyval :=
  match v with
  | PyDict d =>
      match d !! k with
      | Some x => Ok x
      | None => Raise (KeyError (KStr k))
      end
  | _ => Raise TypeError
  end.

(** ** A reference reader for [json.loads]

    [json.loads] belongs to Python's library, not to the repository; the
    statements about [is_enterprise] below hold for every reader.  This one
    follows the decoder of the [json] module (strict mode) and is the reader
    the worked examples run: white space is blank, tab, LF and CR; a number
    is an optional minus sign, an integer part without leading zero, an
    optional fraction and an optional exponent; a repeated key
    keeps its last value; text after the value is an error.  It refuses the
    escapes [\uXXXX] above U+00FF, which [string] cannot hold. *)

Module Json.

Import Text.

Definition is_ws (c : ascii) : bool :=
  let n := nat_of_ascii c in
  Nat.eqb n 32 || Nat.eqb n 9 || Nat.eqb n 10 || Nat.eqb n 13.

Fixpoint skip_ws (s : string) : string :=
  match s with
  | String c s' => if is_ws c then skip_ws s' else s
  | EmptyString => EmptyString
  end.

(** The rest of [s] behind the prefix [p], if [s] starts with [p]. *)
Fixpoint strip_prefix (p s : string) : option string :=
  match p, s with
  | EmptyString, _ => Some s
  | String a p', String b s' =>
      if Ascii.eqb a b then strip_prefix p' s' else None
  | String _ _, EmptyString => None
  end.

Definition is_digit (c : ascii) : bool :=
  let n := nat_of_ascii c in Nat.leb 48 n && Nat.leb n 57.

Fixpoint span_digits (s : string) : string * string :=
  match s with
  | String c s' =>
      if is_digit c then
        let '(d, r) := span_digits s' in (String c d, r)
      else (EmptyString, s)
  | EmptyString => (EmptyString, EmptyString)
  end.

Fixpoint Z_of_digits (acc : Z) (s : string) : Z :=
  match s with
  | String c s' => Z_of_digits (10 * acc + Z.of_nat (nat_of_ascii c - 48)) s'
  | EmptyString => acc
  end.

(** Integer part: a lone [0], or a digit from 1 to 9 and the digits behind
    it. *)
Definition span_int (s : string) : option (string * string) :=
  match s with
  | String c s' =>
      if Ascii.eqb c "0" then Some ("0", s')
      else if is_digit c then
        let '(d, r) := span_digits s' in Some (String c d, r)
      else None
  | EmptyString => None
  end.

Definition span_frac (s : string) : string * string :=
  match s with
  | String c s' =>
      if Ascii.eqb c "." then
        match span_digits s' with
        | (EmptyString, _) => (EmptyString, s)
        | (d, r) => (String c d, r)
        end
      else (EmptyString, s)
  | EmptyString => (EmptyString, s)
  end.

Definition span_exp (s : string) : string * string :=
  match s with
  | String e s' =>
      if Ascii.eqb e "e" || Ascii.eqb e "E" then
        let '(sign, s1) :=
          match s' with
          | String c s'' =>
              if Ascii.eqb c "+" || Ascii.eqb c "-"
              then (String c EmptyString, s'') else (EmptyString, s')
          | EmptyString => (EmptyString, s')
          end in
        match span_digits s1 with
        | (EmptyString, _) => (EmptyString, s)
        | (d, r) => (String e (sign ++ d), r)
        end
      else (EmptyString, s)
  | EmptyString => (EmptyString, s)
  end.

Definition parse_number (s : string) : option (pyval * string) :=
  let '(neg, s1) :=
    match s with
    | String c s' => if Ascii.eqb c "-" then (true, s') else (false, s)
    | EmptyString => (false, s)
    end in
  match span_int s1 with
  | None => None
  | Some (i, s2) =>
      let '(f, s3) := span_frac s2 in
      let '(e, s4) := span_exp s3 in
      match f, e with
      | EmptyString, EmptyString =>
          let n := Z_of_digits 0 i in
          Some (PyInt (if neg : bool then (- n)%Z else n), s4)
      | _, _ =>
          let sign := if neg : bool then "-" else EmptyString in
          Some (PyFloat (sign ++ i ++ f ++ e), s4)
      end
  end.

Definition hex_val (c : ascii) : option nat :=
  let n := nat_of_ascii c in
  if Nat.leb 48 n && Nat.leb n 57 then Some (n - 48)
  else if Nat.leb 65 n && Nat.leb n 70 then Some (n - 55)
  else if Nat.leb 97 n && Nat.leb n 102 then Some (n - 87)
  else None.

(** The character an escape letter stands for. *)
Definition unescape (c : ascii) : option ascii :=
  let n := nat_of_ascii c in
  if Nat.eqb n 34 || Nat.eqb n 92 || Nat.eqb n 47 then Some c
  else if Nat.eqb n 98 then Some (ascii_of_nat 8)
  else if Nat.eqb n 102 then Some (ascii_of_nat 12)
  else if Nat.eqb n 110 then Some (ascii_of_nat 10)
  else if Nat.eqb n 114 then Some (ascii_of_nat 13)
  else if Nat.eqb n 116 then Some (ascii_of_nat 9)
  else None.

(** The text of a string literal, read from behind its opening quote, and
    what follows the closing quote. *)
Fixpoint parse_string (s : string) : option (string * string) :=
  match s with
  | EmptyString => None
  | String c s' =>
      if Ascii.eqb c dquote_char then Some (EmptyString, s')
      else if Nat.ltb (nat_of_ascii c) 32 then None
      else if Ascii.eqb c "\" then
        match s' with
        | EmptyString => None
        | String e s'' =>
            if Ascii.eqb e "u" then
              match s'' with
              | String h1 (String h2 (String h3 (String h4 r))) =>
                  match hex_val h1, hex_val h2, hex_val h3, hex_val h4 with
                  | Some 0, Some 0, Some a, Some b =>
                      match parse_string r with
                      | Some (t, r') =>
                          Some (String (ascii_of_nat (16 * a + b)) t, r')
                      | None => None
                      end
                  | _, _, _, _ => None
                  end
              | _ => None
              end
            else
              match unescape e with
              | Some x =>
                  match parse_string s'' with
                  | Some (t, r') => Some (String x t, r')
                  | None => None
                  end
              | None => None
              end
        end
      else
        match parse_string s' with
        | Some (t, r') => Some (String c t, r')
        | None => None
        end
  end.

(** [s] behind the character [c], if [s] starts with it. *)
Definition expect (c : ascii) (s : string) : option string :=
  match s with
  | String c' s' => if Ascii.eqb c c' then Some s' else None
  | EmptyString => None
  end.

Definition parse_literal (s : string) : option (pyval * string) :=
  match strip_prefix "null" s with Some r => Some (PyNone, r) | None =>
  match strip_prefix "true" s with Some r => Some (PyBool true, r) | None =>
  match strip_prefix "false" s with Some r => Some (PyBool false, r) | None =>
  match strip_prefix "NaN" s with Some r => Some (PyFloat "NaN", r) | None =>
  match strip_prefix "Infinity" s with
  | Some r => Some (PyFloat "Infinity", r) | None =>
  match strip_prefix "-Infinity" s with
  | Some r => Some (PyFloat "-Infinity", r) | None =>
  parse_number s
  end end end end end end.

Fixpoint parse_value (fuel : nat) (s : string) : option (pyval * string) :=
  match fuel with
  | O => None
  | S f =>
      match s with
      | EmptyString => None
      | String c s' =>
          if Ascii.eqb c dquote_char then
            match parse_string s' with
            | Some (t, r) => Some (PyStr t, r)
            | None => None
            end
          else if Ascii.eqb c "{" then
            match expect "}" (skip_ws s') with
            | Some r => Some (PyDict ∅, r)
            | None => parse_members f ∅ (skip_ws s')
            end
          else if Ascii.eqb c "[" then
            match expect "]" (skip_ws s') with
            | Some r => Some (PyList [], r)
            | None => parse_elements f [] (skip_ws s')
            end
          else parse_literal s
      end
  end
with parse_members (fuel : nat) (acc : gmap string pyval) (s : string)
  : option (pyval * string) :=
  match fuel with
  | O => None
  | S f =>
      match expect dquote_char s with
      | None => None
      | Some s1 =>
          match parse_string s1 with
          | None => None
          | Some (k, s2) =>
              match expect ":" (skip_ws s2) with
              | None => None
              | Some s3 =>
                  match parse_value f (skip_ws s3) with
                  | None => None
                  | Some (v, s4) =>
                      let acc' := <[k := v]> acc in
                      match expect "}" (skip_ws s4) with
                      | Some r => Some (PyDict acc', r)
                      | None =>
                          match expect "," (skip_ws s4) with
                          | Some s5 => parse_members f acc' (skip_ws s5)
                          | None => None
                          end
                      end
                  end
              end
          end
      end
  end
with parse_elements (fuel : nat) (acc : list pyval) (s : string)
  : option (pyval * string) :=
  match fuel with
  | O => None
  | S f =>
      match parse_value f s with
      | None => None
      | Some (v, s1) =>
          let acc' := (acc ++ [v])%list in
          match expect "]" (skip_ws s1) with
          | Some r => Some (PyList acc', r)
          | None =>
              match expect "," (skip_ws s1) with
              | Some s2 => parse_elements f acc' (skip_ws s2)
              | None => None
              end
          end
      end
  end.

(** [json.loads(s)]; [None] stands for [json.JSONDecodeError]. *)
Definition loads (s : string) : option pyval :=
  match parse_value (S (String.length s)) (skip_ws s) with
  | Some (v, r) =>
      match skip_ws r with
      | EmptyString => Some v
      | String _ _ => None
      end
  | None => None
  end.

End Json.

(** ** The command line helpers ([cli/_utils.py], [cli/_validators.py]) *)

Module Cli.

Import Text.

(** The outside world of the CLI code: the paths that exist in the file
    tree and the lines written with [click.echo]. *)
Record World : Type := mkWorld {
  fs : gset string;
  echoed : list string
}.

(** [ctx.params], the entries the modelled validators read. *)
Record Context : Type := mkContext {
  param_cluster_id : string;
  param_artifact : string;
  param_workspace_dir : option string
}.

(** Modelled from the spec: [ContainerInspectView] of [cli/_common.py] is not
    among the sources.  These are the entries of its [to_dict] that
    [validate_node_reference] reads: the stored reference label, the IP
    address, the container name and the container id. *)
Record InspectData : Type := mkInspectData {
  e2e_reference : string;
  ip_address : string;
  docker_container_name : string;
  docker_container_id : string
}.

(** [click.echo(line)]. *)
Definition echo (line : string) : M World unit :=
  fun w => (Ok tt, mkWorld (fs w) (echoed w ++ [line])%list).

(** [path.mkdir()] for [path = parent / name]: the parent must exist, the
    path must not. *)
Definition Path_mkdir (parent name : string) : M World unit :=
  fun w =>
    let path := path_join parent name in
    if bool_decide (path ∈ fs w) then (Raise (FileExistsError path), w)
    else if bool_decide (parent ∈ fs w)
         then (Ok tt, mkWorld ({[ path ]} ∪ fs w) (echoed w))
         else (Raise (FileNotFoundError path), w).

(** [path] is [root] or lies below it. *)
Definition within (root path : string) : bool :=
  String.eqb path root || startswith (root ++ "/") path.

(** [rmtree(path=root, ignore_errors=True)]: the directory and what is below
    it are gone afterwards, and nothing is raised. *)
Definition rmtree (root : string) : M World unit :=
  fun w =>
    (Ok tt, mkWorld (filter (fun p => within root p = false) (fs w))
                    (echoed w)).

(** *** The words of the specification

    Stated apart from the code, to compare the code with: a noise line, the
    lines left when exactly the noise lines are dropped, a JSON value
    without a [variant] field, and the failures the specification calls
    MalformedVersionReport, which in the code are the exceptions of
    [json.loads] and of the subscript [version_info['variant']]. *)

Definition noise (line : string) : Prop :=
  starts_with "Extracting image" line
  \/ starts_with "Loaded image" line
  \/ occurs_in ".tar" line.

Inductive drops_noise : list string -> list string -> Prop :=
| drops_nil : drops_noise [] []
| drops_skip line ls ks :
    noise line -> drops_noise ls ks -> drops_noise (line :: ls) ks
| drops_keep line ls ks :
    ~ noise line -> drops_noise ls ks -> drops_noise (line :: ls) (line :: ks).

Definition lacks_variant (v : pyval) : Prop :=
  match v with
  | PyDict d => d !! "variant" = None
  | _ => True
  end.

Definition MalformedVersionReport (e : exn) : Prop :=
  e = JSONDecodeError \/ e = KeyError (KStr "variant") \/ e = TypeError.

Section Probe.

(** [json.loads]; [None] stands for [json.JSONDecodeError]. *)
Variable json_loads : string -> option pyval.

(** [subprocess.check_output(args, cwd, stderr=PIPE, shell=True)] followed
    by [decode]: the text the process wrote, or the exception, and the file
    tree the process left behind. *)
Variable check_output :
  list string -> string -> gset string -> result string * gset string.

Definition run_check_output (args : list string) (cwd : string)
  : M World string :=
  fun w =>
    let '(r, fs') := check_output args cwd (fs w) in
    (r, mkWorld fs' (echoed w)).

(** The condition of the list comprehension in [is_enterprise]. *)
Definition keep_line (line : string) : bool :=
  negb (startswith "Extracting image" line)
  && negb (startswith "Loaded image" line)
  && negb (contains ".tar" line).

(** [is_enterprise] from the decoded output on: filter the lines, join
    them, load the JSON text, read [variant], compare it with ['ee']. *)
Definition is_enterprise_of_output (output : string) : result bool :=
  let joined := join " " (List.filter keep_line (splitlines output)) in
  match json_loads joined with
  | None => Raise JSONDecodeError
  | Some version_info =>
      match py_getitem version_info "variant" with
      | Raise e => Raise e
      | Ok variant => Ok (py_eq_str variant "ee")
      end
  end.

Definition get_version_args (build_artifact : string) : list string :=
  ["bash"; dquote ++ build_artifact ++ dquote; "--version"].

(** [is_enterprise]. *)
Definition is_enterprise (build_artifact workspace_dir : string)
  : M World bool :=
  (do output <- run_check_output (get_version_args build_artifact)
                                 workspace_dir ;;
   lift_result (is_enterprise_of_output output))%py.

(** [Path.resolve], [gettempdir()] and the value of [uuid.uuid4().hex] in
    this call. *)
Variable Path_resolve : string -> string.
Variable gettempdir : string.
Variable uuid4_hex : string.

Definition doctor_message : string :=
  "Try `dcos-docker doctor` for troubleshooting help.".

(** The directory [validate_variant] creates for the probe. *)
Definition workspace_of (ctx : Context) : string :=
  path_join (default gettempdir (param_workspace_dir ctx)) uuid4_hex.

(** [validate_variant].  The spinner only draws on the terminal and is left
    out.  The [except] clause takes [subprocess.CalledProcessError] alone. *)
Definition validate_variant (ctx : Context) (value : string)
  : M World string :=
  if negb (String.eqb value "auto") then ret value
  else
    (let artifact_path := Path_resolve (param_artifact ctx) in
     let base_workspace_dir :=
       default gettempdir (param_workspace_dir ctx) in
     let workspace_dir := path_join base_workspace_dir uuid4_hex in
     run Path_mkdir base_workspace_dir uuid4_hex ;;
     do enterprise <-
       try_except (is_enterprise artifact_path workspace_dir)
         (fun exc =>
            match exc with
            | CalledProcessError _ stderr =>
                Some (run rmtree workspace_dir ;;
                      run echo doctor_message ;;
                      run echo "" ;;
                      run echo "Original error:" ;;
                      run echo stderr ;;
                      raise exc)
            | _ => None
            end) ;;
     run rmtree workspace_dir ;;
     ret (if enterprise : bool then "enterprise" else "oss"))%py.

End Probe.

Section Resolver.

(** Docker containers and node handles; [cluster_containers.to_node] and
    [ContainerInspectView(container).to_dict()] are taken as given. *)
Variables Container Node : Type.
Variable to_dict : Container -> InspectData.
Variable to_node : Container -> Node.

(** [str.upper]. *)
Variable str_upper : string -> string.

(** [ClusterContainers(cluster_id)]: the containers of each role. *)
Variables masters agents public_agents : string -> list Container.

(** The order in which the [for] loop visits the set display
    [{*masters, *agents, *public_agents}], given the elements put in. *)
Variable set_iter : list Container -> list Container.

(** The tuple [accepted] of the loop body. *)
Definition accepted (container : Container) : list string :=
  let inspect_data := to_dict container in
  let reference := e2e_reference inspect_data in
  let ip_address := ip_address inspect_data in
  let container_name := docker_container_name inspect_data in
  let container_id := docker_container_id inspect_data in
  [reference; str_upper reference; ip_address; container_name; container_id].

(** The [for] loop: the node of the first container visited whose tuple
    holds [value]; [None] when the loop runs to its end. *)
Fixpoint find_node (containers : list Container) (value : string)
  : option Node :=
  match containers with
  | [] => None
  | container :: rest =>
      if bool_decide (value ∈ accepted container)
      then Some (to_node container)
      else find_node rest value
  end.

Definition no_such_node_message (cluster_id value : string) : string :=
  "No such node in cluster " ++ dquote ++ cluster_id ++ dquote
  ++ " with IP address, Docker container ID or node reference "
  ++ dquote ++ value ++ dquote
  ++ ". Node references can be seen with ``dcos_docker inspect``.".

(** The containers put into the set display. *)
Definition members (ctx : Context) : list Container :=
  (masters (param_cluster_id ctx) ++ agents (param_cluster_id ctx)
   ++ public_agents (param_cluster_id ctx))%list.

(** [validate_node_reference]. *)
Definition validate_node_reference (ctx : Context) (value : string)
  : result Node :=
  let cluster_id := param_cluster_id ctx in
  let containers := set_iter (members ctx) in
  match find_node containers value with
  | Some node => Ok node
  | None => Raise (BadParameter (no_such_node_message cluster_id value))
  end.

End Resolver.

End Cli.

(** ** Worked data

    Inputs on which the statements of the second part are run: artifact
    outputs with noise lines around the version report, artifact processes
    that print a given text or exit with a status other than zero, a file
    tree holding the directory for temporary files, and a cluster of one
    master. *)

Module Examples.

Import Text Cli.

Definition LF : string := String (ascii_of_nat 10) EmptyString.

Definition ee_output : string :=
  "Extracting image sha256:0a1b" ++ LF
  ++ "Loaded image: foo.tar" ++ LF
  ++ q "{'variant': 'ee', 'version': '1.11.0'}" ++ LF.

Definition oss_output : string :=
  "Extracting image sha256:0a1b" ++ LF
  ++ "Loaded image: foo.tar" ++ LF
  ++ q "{'variant': 'oss', 'version': '1.11.0'}" ++ LF.

Definition noise_only_output : string :=
  "Extracting image sha256:0a1b" ++ LF ++ "Loaded image: foo.tar" ++ LF.

Definition no_variant_output : string := q "{'version': '1.11.0'}" ++ LF.

Definition prints (output : string)
  : list string -> string -> gset string -> result string * gset string :=
  fun _ _ tree => (Ok output, tree).

Definition exits_nonzero (returncode : Z) (stderr : string)
  : list string -> string -> gset string -> result string * gset string :=
  fun _ _ tree => (Raise (CalledProcessError returncode stderr), tree).

Definition ctx0 : Context :=
  mkContext "default" "/srv/dcos_generate_config.sh" None.

Definition world0 : World := mkWorld {[ "/tmp" ]} [].

(** [validate_variant] with the reference reader, paths taken as resolved,
    [/tmp] for temporary files and [3f2a] drawn as name. *)
Definition validate0
    (process : list string -> string -> gset string
               -> result string * gset string) : result string * World :=
  validate_variant Json.loads process (fun p => p) "/tmp" "3f2a" ctx0 "auto"
                   world0.

Definition master0 : InspectData :=
  mkInspectData "master_0" "10.0.0.5" "dcos-e2e-default-master-0" "abc123".

(** A cluster of the one master; a container is given by its inspect data
    and its node handle by its IP address and container id. *)
Definition resolve0 (value : string) : result (string * string) :=
  validate_node_reference InspectData (string * string)
    (fun c => c)
    (fun c => (ip_address c, docker_container_id c))
    ascii_upper
    (fun _ => [master0]) (fun _ => []) (fun _ => [])
    (fun l => l)
    ctx0 value.

End Examples.

(** ** The other validators of [cli/_validators.py] *)

Module Validators.

Import Text.

(** [s.split(sep)] for a separator of one character: the pieces between
    the separators; a text without separator is its own single piece. *)
Fixpoint split (sep : ascii) (s : string) : list string :=
  match s with
  | EmptyString => [EmptyString]
  | String c s' =>
      if Ascii.eqb c sep then EmptyString :: split sep s'
      else
        match split sep s' with
        | [] => [String c EmptyString]
        | piece :: pieces => String c piece :: pieces
        end
  end.

(** [s.split(sep=sep, maxsplit=1)]: the text before the first separator and
    the text behind it, or the text alone when it has no separator. *)
Fixpoint split_once (sep : ascii) (s : string) : list string :=
  match s with
  | EmptyString => [EmptyString]
  | String c s' =>
      if Ascii.eqb c sep then [EmptyString; s']
      else
        match split_once sep s' with
        | [] => [String c EmptyString]
        | piece :: pieces => String c piece :: pieces
        end
  end.

(** [str(value)] for an option value that is a string or [None]. *)
Definition py_str (value : option string) : string :=
  match value with
  | Some s => s
  | None => "None"
  end.

(** The character classes of the cluster id pattern. *)
Definition is_alnum (c : ascii) : bool :=
  let n := nat_of_ascii c in
  (Nat.leb 97 n && Nat.leb n 122) || (Nat.leb 65 n && Nat.leb n 90)
  || (Nat.leb 48 n && Nat.leb n 57).

Definition is_id_char (c : ascii) : bool :=
  is_alnum c || Ascii.eqb c "_" || Ascii.eqb c "." || Ascii.eqb c "-".

Fixpoint all_chars (f : ascii -> bool) (s : string) : bool :=
  match s with
  | EmptyString => true
  | String c s' => f c && all_chars f s'
  end.

(** [re.fullmatch('^[a-zA-Z0-9][a-zA-Z0-9_.-]*$', s)] is a match. *)
Definition cluster_id_fullmatch (s : string) : bool :=
  match s with
  | EmptyString => false
  | String c s' => is_alnum c && all_chars is_id_char s'
  end.

Section Clusters.

(** What [existing_cluster_ids()] returns. *)
Variable existing_cluster_ids : gset string.

(** [value in existing_cluster_ids()]; [None] is no member of a set of
    strings. *)
Definition is_existing (value : option string) : bool :=
  match value with
  | Some s => bool_decide (s ∈ existing_cluster_ids)
  | None => false
  end.

(** [validate_cluster_id]. *)
Definition validate_cluster_id (value : option string) : result string :=
  if is_existing value then
    Raise (BadParameter
             (q "A cluster with the id '" ++ py_str value
              ++ q "' already exists"))
  else if negb (cluster_id_fullmatch (py_str value)) then
    Raise (BadParameter
             (q "Invalid cluster id '" ++ py_str value
              ++ q "', only [a-zA-Z0-9][a-zA-Z0-9_.-] "
              ++ "are allowed and the cluster ID cannot be empty."))
  else Ok (py_str value).

(** [validate_cluster_exists]. *)
Definition validate_cluster_exists (value : option string) : result string :=
  match value with
  | None =>
      if bool_decide ("default" ∈ existing_cluster_ids) then Ok "default"
      else
        Raise (BadParameter
                 (q ("--cluster-id was not given and no cluster "
                     ++ "'default' exists")))
  | Some v =>
      let cluster_id := v in
      if negb (bool_decide (cluster_id ∈ existing_cluster_ids)) then
        Raise (BadParameter (q "Cluster '" ++ v ++ q "' does not exist"))
      else Ok cluster_id
  end.

End Clusters.

Section Paths.

(** [pathlib.Path] as the validators use it: the constructor, [str], and
    the two tests [exists] (on the file tree of the moment) and
    [is_absolute]. *)
Variable Path : Type.
Variable mkPath : string -> Path.
Variable Path_str : Path -> string.
Variable Path_exists : Path -> bool.
Variable Path_is_absolute : Path -> bool.

(** The [for] loop of [validate_path_pair], with [result] as built so
    far. *)
Fixpoint path_pair_loop (value : list string) (pairs : list (Path * Path))
  : result (list (Path * Path)) :=
  match value with
  | [] => Ok pairs
  | path_pair :: rest =>
      match List.map mkPath (split ":" path_pair) with
      | [local_path; remote_path] =>
          if negb (Path_exists local_path) then
            Raise (BadParameter
                     (dquote ++ Path_str local_path ++ dquote
                      ++ " does not exist."))
          else if negb (Path_is_absolute remote_path) then
            Raise (BadParameter
                     (dquote ++ Path_str remote_path
                      ++ " is not an absolute path."))
          else path_pair_loop rest (pairs ++ [(local_path, remote_path)])%list
      | _ =>
          Raise (BadParameter
                   (dquote ++ path_pair ++ dquote ++ " is not in the format "
                    ++ "/absolute/local/path:/remote/path."))
      end
  end.

(** [validate_path_pair]. *)
Definition validate_path_pair (value : option (list string))
  : result (list (Path * Path)) :=
  match value with
  | None => Ok []
  | Some definitions => path_pair_loop definitions []
  end.

End Paths.

(** [docker.types.Mount], the entries [validate_volumes] sets. *)
Record Mount : Type := mkMount {
  mount_source : option string;
  mount_target : string;
  mount_type : string;
  mount_read_only : bool
}.

(** The body of the loop of [validate_volumes] up to the [Mount] call. *)
Definition mount_of (volume_definition : string) : result Mount :=
  match split ":" volume_definition with
  | [container_dst] => Ok (mkMount None container_dst "bind" false)
  | [host_src; container_dst] =>
      Ok (mkMount (Some host_src) container_dst "bind" false)
  | [host_src; container_dst; mode] =>
      if String.eqb mode "ro" then
        Ok (mkMount (Some host_src) container_dst "bind" true)
      else if String.eqb mode "rw" then
        Ok (mkMount (Some host_src) container_dst "bind" false)
      else
        Raise (BadParameter
                 (q "Mode in '" ++ volume_definition ++ q "' is '" ++ mode
                  ++ q "'. If given, the mode must be one of 'ro', 'rw'."))
  | _ =>
      Raise (BadParameter
               (dquote ++ volume_definition ++ dquote
                ++ " is not a valid volume definition. See "
                ++ "https://docs.docker.com/engine/reference/run/"
                ++ "#volume-shared-filesystems for the syntax to use."))
  end.

Fixpoint volumes_loop (value : list string) (mounts : list Mount)
  : result (list Mount) :=
  match value with
  | [] => Ok mounts
  | volume_definition :: rest =>
      match mount_of volume_definition with
      | Ok mount => volumes_loop rest (mounts ++ [mount])%list
      | Raise e => Raise e
      end
  end.

(** [validate_volumes]. *)
Definition validate_volumes (value : list string) : result (list Mount) :=
  volumes_loop value [].

(** The [for] loop of [validate_environment_variable], with [env] as built
    so far. *)
Fixpoint environment_loop (value : list string) (env : gmap string string)
  : result (gmap string string) :=
  match value with
  | [] => Ok env
  | definition :: rest =>
      match split_once "=" definition with
      | [key; val] => environment_loop rest (<[key := val]> env)
      | _ =>
          Raise (BadParameter
                   (dquote ++ definition ++ dquote
                    ++ q " does not match the format '<KEY>=<VALUE>'."))
      end
  end.

(** [validate_environment_variable]. *)
Definition validate_environment_variable (value : list string)
  : result (gmap string string) :=
  environment_loop value ∅.

(** [sep.join(pieces)] for a separator of one character. *)
Definition join_char (sep : ascii) (pieces : list string) : string :=
  join (String sep EmptyString) pieces.

(** [c] occurs nowhere in [s]. *)
Fixpoint free_of (c : ascii) (s : string) : bool :=
  match s with
  | EmptyString => true
  | String a s' => negb (Ascii.eqb a c) && free_of c s'
  end.

End Validators.

(** ** Words for the further properties *)

Module Words.

Import Text DockerBuild.

(** A build request that asks for the removal of intermediate containers
    and carries the caller's tag or that tag followed by [:base]. *)
Definition well_tagged (tag : string) (call : BuildCall) : Prop :=
  bc_rm call = true /\ bc_forcerm call = true
  /\ (bc_tag call = tag \/ bc_tag call = tag ++ ":base").

(** Lines without line boundary, and the text that ends each of the given
    lines with LF. *)
Definition no_linebreak (line : string) : bool :=
  Validators.all_chars (fun c => negb (is_linebreak c)) line.

Fixpoint unlines (lines : list string) : string :=
  match lines with
  | [] => EmptyString
  | line :: rest => line ++ String (ascii_of_nat 10) (unlines rest)
  end.

(** A volume definition and the mount it stands for: a target alone, or
    source and target, or source, target and one of the modes [rw] and
    [ro]; source and target hold no colon, the mount is a bind mount, and
    it is read-only for the mode [ro] alone. *)
Definition describes (volume_definition : string) (mount : Validators.Mount)
  : Prop :=
  Validators.mount_type mount = "bind"
  /\ Validators.free_of ":" (Validators.mount_target mount) = true
  /\ match Validators.mount_source mount with
     | None =>
         volume_definition = Validators.mount_target mount
         /\ Validators.mount_read_only mount = false
     | Some source =>
         Validators.free_of ":" source = true
         /\ let target := Validators.mount_target mount in
            (volume_definition = source ++ ":" ++ target
             /\ Validators.mount_read_only mount = false)
            \/ (volume_definition = source ++ ":" ++ target ++ ":rw"
                /\ Validators.mount_read_only mount = false)
            \/ (volume_definition = source ++ ":" ++ target ++ ":ro"
                /\ Validators.mount_read_only mount = true)
     end.

(** A path pair definition and the pair it names: a local part and a
    remote part without colon, with one colon between them; the local path
    exists and the remote path is absolute. *)
Definition names_pair {Path : Type} (mkPath : string -> Path)
    (Path_exists Path_is_absolute : Path -> bool)
    (path_pair : string) (pair : Path * Path) : Prop :=
  exists local remote,
    path_pair = local ++ ":" ++ remote
    /\ Validators.free_of ":" local = true
    /\ Validators.free_of ":" remote = true
    /\ pair = (mkPath local, mkPath remote)
    /\ Path_exists (mkPath local) = true
    /\ Path_is_absolute (mkPath remote) = true.

(** The message of [validate_environment_variable] for a definition. *)
Definition no_key_value_message (definition : string) : string :=
  dquote ++ definition ++ dquote
  ++ q " does not match the format '<KEY>=<VALUE>'.".

(** The definition sets the variable [key]: it is the key, without equals
    sign, then an equals sign, then a value. *)
Definition sets_key (key definition : string) : Prop :=
  Validators.free_of "=" key = true
  /\ exists val, definition = key ++ "=" ++ val.

End Words.

(** ** A cluster of three roles

    The master of the worked data with an agent and a public agent; the
    order in which the set of the three is visited is left open. *)

Module Examples3.

Import Text Cli Examples.

Definition agent0 : InspectData :=
  mkInspectData "agent_0" "10.0.0.6" "dcos-e2e-default-agent-0" "def456".

Definition public_agent0 : InspectData :=
  mkInspectData "public_agent_0" "10.0.0.7"
                "dcos-e2e-default-public-agent-0" "0789ab".

Definition resolve3 (order : list InspectData -> list InspectData)
    (value : string) : result (string * string) :=
  validate_node_reference InspectData (string * string)
    (fun c => c)
    (fun c => (ip_address c, docker_container_id c))
    ascii_upper
    (fun _ => [master0]) (fun _ => [agent0]) (fun _ => [public_agent0])
    order
    ctx0 value.

End Examples3.

(** * Properties *)

(** ** Strings *)

Module TextFacts.

Import Text.

Lemma app_nil_l (t : string) : "" ++ t = t.
Proof. reflexivity. Qed.

Lemma app_cons (c : ascii) (s t : string) :
  String c s ++ t = String c (s ++ t).
Proof. reflexivity. Qed.

Ltac push_app := rewrite ?app_cons, ?app_nil_l in *.

Lemma string_app_assoc (s t u : string) : (s ++ t) ++ u = s ++ t ++ u.
Proof.
  induction s as [|c s IH]; push_app; [reflexivity | now rewrite IH].
Qed.

Lemma length_app (s t : string) :
  String.length (s ++ t) = String.length s + String.length t.
Proof.
  induction s as [|c s IH]; push_app; simpl; [reflexivity | now rewrite IH].
Qed.

(** A tag and the tag with a suffix of positive length differ. *)
Lemma app_nonempty_ne (s t : string) : t <> EmptyString -> s ++ t <> s.
Proof.
  intros Ht Heq. apply (f_equal String.length) in Heq.
  rewrite length_app in Heq. destruct t; [congruence | simpl in Heq; lia].
Qed.

Lemma startswith_spec (p s : string) :
  startswith p s = true <-> starts_with p s.
Proof.
  revert s. induction p as [|a p IH]; intros s; simpl.
  - split; [intros _; now exists s | reflexivity].
  - destruct s as [|b s].
    + split; [discriminate | intros [t Ht]; push_app; discriminate].
    + destruct (Ascii.eqb_spec a b) as [->|Hne].
      * rewrite IH. split; intros [t Ht]; exists t; push_app.
        -- now rewrite Ht.
        -- now injection Ht.
      * split; [discriminate | intros [t Ht]; push_app; congruence].
Qed.

Lemma contains_spec (sub s : string) :
  contains sub s = true <-> occurs_in sub s.
Proof.
  induction s as [|c s IH].
  - simpl. destruct (startswith sub "") eqn:E.
    + split; [intros _ | reflexivity].
      apply startswith_spec in E as [t Ht]. now exists "", t.
    + split; [discriminate |]. intros [a [b Hab]].
      destruct a; push_app.
      * assert (startswith sub "" = true)
          by (apply startswith_spec; now exists b).
        congruence.
      * discriminate.
  - simpl. destruct (startswith sub (String c s)) eqn:E.
    + split; [intros _ | reflexivity].
      apply startswith_spec in E as [t Ht]. exists "", t. exact Ht.
    + rewrite IH. split.
      * intros [a [b Hab]]. exists (String c a), b. push_app.
        now rewrite Hab.
      * intros [a [b Hab]]. destruct a as [|c' a]; push_app.
        -- assert (startswith sub (String c s) = true)
             by (apply startswith_spec; now exists b).
           congruence.
        -- injection Hab as _ Hs. now exists a, b.
Qed.

End TextFacts.

(** ** The image build pipeline *)

Module BuildSpec.

Import Text DockerBuild TextFacts.

Lemma base_tag_ne (tag : string) : tag ++ ":base" <> tag.
Proof. apply app_nonempty_ne. discriminate. Qed.

Section Client.

Variable current_parent : string.
Variable daemon_build : BuildCall -> gmap string ImageId -> option ImageId.

Abbreviation build := (build_docker_image current_parent daemon_build).
Abbreviation base_of := (base_call).
Abbreviation docker_of := (docker_call current_parent).

(** The base context is the directory the distribution table names. *)
Lemma base_dockerfile_listed d segment :
  dcos_docker_distros d = Some segment ->
  _base_dockerfile current_parent d =
    Ok (path_join (path_join (path_join (path_join current_parent "resources")
                                        "dockerfiles") "base") segment).
Proof. intros H. unfold _base_dockerfile. now rewrite H. Qed.

Lemma base_dockerfile_unlisted d :
  dcos_docker_distros d = None ->
  _base_dockerfile current_parent d = Raise (KeyError (KDistribution d)).
Proof. intros H. unfold _base_dockerfile. now rewrite H. Qed.

(** What one build request does to the daemon. *)
Lemma images_build_ok call st img :
  daemon_build call (image_store st) = Some img ->
  images_build daemon_build call st =
    (Ok tt, mkDaemon (<[bc_tag call := img]> (image_store st))
                     (build_log st ++ [call])%list).
Proof. intros H. unfold images_build. now rewrite H. Qed.

Lemma images_build_fails call st :
  daemon_build call (image_store st) = None ->
  images_build daemon_build call st =
    (Raise BuildError,
     mkDaemon (image_store st) (build_log st ++ [call])%list).
Proof. intros H. unfold images_build. now rewrite H. Qed.

(** [build_docker_image] up to the point where the base step returned. *)
Lemma build_after_base tag d v st path :
  _base_dockerfile current_parent d = Ok path ->
  build tag d v st =
    match images_build daemon_build (base_of path tag) st with
    | (Raise e, st1) => (Raise e, st1)
    | (Ok _, st1) =>
        match docker_versions v with
        | None => (Raise (KeyError (KDockerVersion v)), st1)
        | Some version =>
            images_build daemon_build (docker_of tag version) st1
        end
    end.
Proof.
  intros Hpath. unfold build_docker_image, bind, lift_result.
  rewrite Hpath. fold (base_of path tag).
  destruct (images_build daemon_build (base_of path tag) st) as [[[]|e] st1];
    [|reflexivity].
  destruct (docker_versions v); reflexivity.
Qed.

(** When the daemon fails the base build, that is the only request sent and
    the call ends in the build error, whatever the version is. *)
Lemma build_base_step_fails tag d v st path :
  _base_dockerfile current_parent d = Ok path ->
  daemon_build (base_of path tag) (image_store st) = None ->
  build tag d v st =
    (Raise BuildError,
     mkDaemon (image_store st) (build_log st ++ [base_of path tag])%list).
Proof.
  intros Hpath Hb. rewrite (build_after_base tag d v st path Hpath).
  now rewrite (images_build_fails _ _ Hb).
Qed.

(** C2.  For a distribution that the table of base build contexts does not
    list, [build_docker_image] raises the [KeyError] of that lookup (the
    spec's UnsupportedDistribution) before any build request is sent: the
    daemon is left exactly as it was, so neither the base tag nor the
    caller's tag is created or overwritten. *)
Theorem build_unknown_distribution tag d v st :
  dcos_docker_distros d = None ->
  build tag d v st = (Raise (KeyError (KDistribution d)), st)
  /\ build_log (snd (build tag d v st)) = build_log st
  /\ untouched (tag ++ ":base") st (snd (build tag d v st))
  /\ untouched tag st (snd (build tag d v st)).
Proof.
  intros Hd.
  assert (E : build tag d v st = (Raise (KeyError (KDistribution d)), st)).
  { unfold build_docker_image, bind, lift_result.
    now rewrite (base_dockerfile_unlisted d Hd). }
  rewrite E. unfold untouched. simpl. auto.
Qed.

(** C1, as amended.  For a version the version table does not list and a
    listed distribution, [build_docker_image] sends the base build request
    and no other, and fails.  The tag the caller gave is never created or
    overwritten.  When the base step succeeds the failure is the [KeyError]
    of the version lookup (the spec's UnsupportedRuntimeVersion) and the
    base tag now names the image just built; when the base step fails the
    failure is that build error and the image store is unchanged. *)
Theorem build_unknown_version tag d v st segment :
  dcos_docker_distros d = Some segment ->
  docker_versions v = None ->
  let path := path_join (path_join (path_join (path_join current_parent
                "resources") "dockerfiles") "base") segment in
  let out := build tag d v st in
  build_log (snd out) = (build_log st ++ [base_of path tag])%list
  /\ untouched tag st (snd out)
  /\ is_ok (fst out) = false
  /\ match daemon_build (base_of path tag) (image_store st) with
     | Some img =>
         fst out = Raise (KeyError (KDockerVersion v))
         /\ image_store (snd out) = <[tag ++ ":base" := img]> (image_store st)
     | None =>
         fst out = Raise BuildError
         /\ image_store (snd out) = image_store st
     end.
Proof.
  intros Hd Hv path out. subst out.
  rewrite (build_after_base tag d v st path
             (base_dockerfile_listed d segment Hd)).
  rewrite Hv. unfold untouched.
  destruct (daemon_build (base_of path tag) (image_store st)) as [img|] eqn:Hb.
  - rewrite (images_build_ok _ _ _ Hb). simpl.
    repeat split; try reflexivity.
    apply lookup_insert_ne, base_tag_ne.
  - rewrite (images_build_fails _ _ Hb). simpl. repeat split; reflexivity.
Qed.


End Client.

(** C1, counterexample.  With the listed distribution [CENTOS_7], a version
    the table does not list and a daemon whose builds succeed, the call
    fails with the [KeyError] of the version lookup, and the base tag, absent
    before, names an image afterwards: the image store was changed. *)
Lemma build_unknown_version_creates_base :
  let out := build_docker_image "/pkg" obliging_daemon "img" CENTOS_7
               (v_unlisted "18.09") empty_daemon in
  dcos_docker_distros CENTOS_7 = Some "centos-7"
  /\ docker_versions (v_unlisted "18.09") = None
  /\ fst out = Raise (KeyError (KDockerVersion (v_unlisted "18.09")))
  /\ image_store empty_daemon !! "img:base" = None
  /\ image_store (snd out) !! "img:base" = Some 7%N
  /\ ~ untouched "img:base" empty_daemon (snd out).
Proof.
  cbv zeta. repeat split; try (vm_compute; reflexivity).
  unfold untouched. vm_compute. discriminate.
Qed.

(** [build_unknown_version] on the same run. *)
Lemma build_unknown_version_witness :
  let out := build_docker_image "/pkg" obliging_daemon "img" CENTOS_7
               (v_unlisted "18.09") empty_daemon in
  untouched "img" empty_daemon (snd out)
  /\ fst out = Raise (KeyError (KDockerVersion (v_unlisted "18.09"))).
Proof.
  pose proof (build_unknown_version "/pkg" obliging_daemon "img" CENTOS_7
                (v_unlisted "18.09") empty_daemon "centos-7"
                eq_refl eq_refl) as H.
  cbv zeta in *. destruct H as (_ & Hu & _ & Hm).
  split; [exact Hu | exact (proj1 Hm)].
Defined.

(** [build_unknown_distribution] for [RHEL_7], which the table of base
    contexts does not list. *)
Lemma build_unknown_distribution_witness :
  build_docker_image "/pkg" obliging_daemon "img" RHEL_7 v1_13_1 empty_daemon
  = (Raise (KeyError (KDistribution RHEL_7)), empty_daemon).
Proof.
  exact (proj1 (build_unknown_distribution "/pkg" obliging_daemon "img"
                  RHEL_7 v1_13_1 empty_daemon eq_refl)).
Defined.


End BuildSpec.

(** ** The artifact variant probe *)

Module ProbeSpec.

Import Text TextFacts Cli.

Lemma keep_line_spec (line : string) : keep_line line = true <-> ~ noise line.
Proof.
  unfold keep_line, noise.
  rewrite !andb_true_iff, !negb_true_iff.
  rewrite <- !not_true_iff_false, !startswith_spec, contains_spec.
  tauto.
Qed.

Lemma keep_line_false (line : string) : keep_line line = false <-> noise line.
Proof.
  rewrite <- not_true_iff_false, keep_line_spec.
  unfold noise. rewrite <- !startswith_spec, <- contains_spec.
  destruct (startswith "Extracting image" line),
           (startswith "Loaded image" line), (contains ".tar" line);
    intuition congruence.
Qed.

(** The list comprehension drops the noise lines and nothing else. *)
Lemma filter_drops_noise (lines : list string) :
  drops_noise lines (List.filter keep_line lines).
Proof.
  induction lines as [|line lines IH]; simpl; [constructor |].
  destruct (keep_line line) eqn:E.
  - apply drops_keep; [now apply keep_line_spec | exact IH].
  - apply drops_skip; [now apply keep_line_false | exact IH].
Qed.

Lemma drops_noise_filter (lines kept : list string) :
  drops_noise lines kept -> kept = List.filter keep_line lines.
Proof.
  induction 1 as [|line ls ks Hn _ IH|line ls ks Hn _ IH]; simpl.
  - reflexivity.
  - apply keep_line_false in Hn. now rewrite Hn.
  - apply keep_line_spec in Hn. rewrite Hn. now f_equal.
Qed.

Lemma py_eq_str_spec (v : pyval) (s : string) :
  py_eq_str v s = true <-> v = PyStr s.
Proof.
  destruct v; simpl; try (split; [discriminate | intros H; discriminate H]).
  rewrite String.eqb_eq. split; congruence.
Qed.

Section Reader.

Variable json_loads : string -> option pyval.

Abbreviation classify := (is_enterprise_of_output json_loads).

(** The three ways [is_enterprise_of_output] ends, by what the reader
    returns on the filtered text. *)
Lemma classify_cases (output : string) :
  let text := join " " (List.filter keep_line (splitlines output)) in
  match json_loads text with
  | None => classify output = Raise JSONDecodeError
  | Some (PyDict d) =>
      match d !! "variant" with
      | Some variant => classify output = Ok (py_eq_str variant "ee")
      | None => classify output = Raise (KeyError (KStr "variant"))
      end
  | Some _ => classify output = Raise TypeError
  end.
Proof.
  intros text. unfold is_enterprise_of_output. fold text.
  destruct (json_loads text) as [[]|]; simpl; try reflexivity.
  destruct (_ !! "variant"); reflexivity.
Qed.

(** C4.  For every output text there is exactly one list of lines that
    [drops_noise] relates to its lines: the lines, in their order, without
    those that start with [Extracting image], start with [Loaded image] or
    hold [.tar].  [is_enterprise] returns a verdict exactly when that list,
    joined with single blanks, is JSON text for an object with a [variant]
    entry; the verdict is [true] (enterprise) if and only if that entry is
    the string [ee], hence [false] (open source) for every other value. *)
Theorem classify_spec (output : string) :
  exists kept,
    drops_noise (splitlines output) kept
    /\ (forall kept', drops_noise (splitlines output) kept' -> kept' = kept)
    /\ forall b : bool,
         classify output = Ok b <->
         exists d variant,
           json_loads (join " " kept) = Some (PyDict d)
           /\ d !! "variant" = Some variant
           /\ (b = true <-> variant = PyStr "ee").
Proof.
  exists (List.filter keep_line (splitlines output)).
  split; [apply filter_drops_noise |].
  split; [apply drops_noise_filter |].
  intros b. pose proof (classify_cases output) as H. cbv zeta in H.
  destruct (json_loads _) as [v|] eqn:Ev.
  - destruct v as [| | | | | |d];
      try (rewrite H; split;
           [discriminate | intros (d' & x & Hd & _); discriminate Hd]).
    destruct (d !! "variant") as [variant|] eqn:Ed; rewrite H.
    + split.
      * intros Hb. injection Hb as <-. exists d, variant.
        repeat split; auto; apply py_eq_str_spec.
      * intros (d' & x & Hd & Hx & Hb). injection Hd as <-.
        rewrite Ed in Hx. injection Hx as <-. f_equal.
        rewrite <- py_eq_str_spec in Hb.
        destruct b, (py_eq_str variant "ee"); intuition congruence.
    + split; [discriminate |].
      intros (d' & x & Hd & Hx & _). injection Hd as <-. congruence.
  - rewrite H. split; [discriminate |].
    intros (d' & x & Hd & _). discriminate Hd.
Qed.

(** C5.  Let [kept] be the lines left after the noise lines are dropped.
    If their join is not JSON text, [is_enterprise] raises the reader's
    [JSONDecodeError]; if it is JSON text for a value without a [variant]
    entry, it raises [KeyError] for that key (an object) or [TypeError] (any
    other value); and if no line is left, the reader is given the empty text
    and, as that is no JSON text, [JSONDecodeError] is raised.  In each case
    the call ends in one of the failures that make up MalformedVersionReport
    and returns no verdict. *)
Theorem classify_malformed (output : string) (kept : list string) :
  drops_noise (splitlines output) kept ->
  (json_loads (join " " kept) = None ->
     classify output = Raise JSONDecodeError)
  /\ (forall v, json_loads (join " " kept) = Some v -> lacks_variant v ->
        exists e, classify output = Raise e
                  /\ (e = KeyError (KStr "variant") \/ e = TypeError))
  /\ (kept = [] -> json_loads "" = None ->
        classify output = Raise JSONDecodeError)
  /\ ((json_loads (join " " kept) = None
       \/ exists v, json_loads (join " " kept) = Some v /\ lacks_variant v) ->
      exists e, classify output = Raise e /\ MalformedVersionReport e).
Proof.
  intros Hk. apply drops_noise_filter in Hk. subst kept.
  pose proof (classify_cases output) as H. cbv zeta in H.
  set (text := join " " (List.filter keep_line (splitlines output))) in *.
  assert (Hnone : json_loads text = None ->
                  classify output = Raise JSONDecodeError).
  { intros E. now rewrite E in H. }
  assert (Hlack : forall v,
             json_loads text = Some v ->
             lacks_variant v ->
             exists e, classify output = Raise e
                       /\ (e = KeyError (KStr "variant") \/ e = TypeError)).
  { intros v E Hv. rewrite E in H.
    destruct v as [| | | | | |d]; try (exists TypeError; now auto).
    simpl in Hv. rewrite Hv in H. exists (KeyError (KStr "variant")). auto. }
  repeat split.
  - exact Hnone.
  - exact Hlack.
  - intros E0 He. apply Hnone. subst text. rewrite E0. exact He.
  - intros [E|(v & E & Hv)].
    + exists JSONDecodeError. split; [now apply Hnone | now left].
    + destruct (Hlack v E Hv) as (e & He & Hor).
      exists e. split; [exact He | right; exact Hor].
Qed.

End Reader.

(** *** The probe and its caller *)

Section Caller.

Variable json_loads : string -> option pyval.
Variable check_output :
  list string -> string -> gset string -> result string * gset string.
Variable Path_resolve : string -> string.
Variable gettempdir : string.
Variable uuid4_hex : string.

Abbreviation probe := (is_enterprise json_loads check_output).
Abbreviation validate :=
  (validate_variant json_loads check_output Path_resolve gettempdir uuid4_hex).
Abbreviation workspace := (workspace_of gettempdir uuid4_hex).

(** [is_enterprise] is the process run followed by the reading of its
    output. *)
Lemma is_enterprise_run (build_artifact workspace_dir : string) (w : World) :
  probe build_artifact workspace_dir w =
    let out := check_output (get_version_args build_artifact) workspace_dir
                            (fs w) in
    (match fst out with
     | Ok output => is_enterprise_of_output json_loads output
     | Raise e => Raise e
     end,
     mkWorld (snd out) (echoed w)).
Proof.
  unfold is_enterprise, bind, run_check_output, lift_result. cbv zeta.
  destruct (check_output _ _ _) as [[output|e] fs']; reflexivity.
Qed.

(** The probe leaves the file tree as the artifact process left it: it
    removes nothing itself, the workspace directory included. *)
Lemma is_enterprise_keeps_tree (build_artifact workspace_dir : string)
    (w : World) :
  fs (snd (probe build_artifact workspace_dir w)) =
    snd (check_output (get_version_args build_artifact) workspace_dir (fs w))
  /\ echoed (snd (probe build_artifact workspace_dir w)) = echoed w.
Proof. rewrite is_enterprise_run. split; reflexivity. Qed.

(** The reading of the output raises none of the exceptions that the
    [except] clause of [validate_variant] takes. *)
Lemma is_enterprise_of_output_raises (output : string) (e : exn) :
  is_enterprise_of_output json_loads output = Raise e ->
  MalformedVersionReport e.
Proof.
  intros H. pose proof (classify_cases json_loads output) as C.
  cbv zeta in C. unfold MalformedVersionReport.
  destruct (json_loads _) as [[| | | | | |d]|];
    try (rewrite C in H; injection H as <-; now auto).
  destruct (d !! "variant"); rewrite C in H; [discriminate |].
  injection H as <-. auto.
Qed.

Lemma rmtree_removes (root : string) (w : World) :
  root ∉ fs (snd (rmtree root w)).
Proof.
  unfold rmtree. simpl. rewrite elem_of_filter. intros [H _].
  unfold within in H. now rewrite String.eqb_refl in H.
Qed.

Lemma Path_mkdir_creates (parent name : string) (w : World) :
  parent ∈ fs w -> path_join parent name ∉ fs w ->
  Path_mkdir parent name w =
    (Ok tt, mkWorld ({[ path_join parent name ]} ∪ fs w) (echoed w)).
Proof.
  intros Hp Hn. unfold Path_mkdir. cbv zeta.
  rewrite (bool_decide_eq_false_2 _ Hn), (bool_decide_eq_true_2 _ Hp).
  reflexivity.
Qed.

(** C9.  The verdict of [is_enterprise] is a function of the output text:
    two runs whose artifact process wrote the same text, whatever the
    artifact path, the workspace, the file tree or the process were, end
    alike, in the same verdict or in the same exception. *)
Theorem is_enterprise_deterministic
    (check_output' :
       list string -> string -> gset string -> result string * gset string)
    (artifact artifact' dir dir' : string) (w w' : World) (output : string) :
  fst (check_output (get_version_args artifact) dir (fs w)) = Ok output ->
  fst (check_output' (get_version_args artifact') dir' (fs w')) = Ok output ->
  fst (probe artifact dir w) = is_enterprise_of_output json_loads output
  /\ fst (is_enterprise json_loads check_output' artifact' dir' w')
     = fst (probe artifact dir w).
Proof.
  intros H H'.
  unfold is_enterprise, bind, run_check_output, lift_result.
  destruct (check_output _ _ _) as [r fs1].
  destruct (check_output' _ _ _) as [r' fs1'].
  simpl in H, H'. subst r r'. split; reflexivity.
Qed.

(** [validate_variant] with a value other than [auto] returns it and
    touches nothing. *)
Lemma validate_variant_explicit (ctx : Context) (value : string) (w : World) :
  value <> "auto" -> validate ctx value w = (Ok value, w).
Proof.
  intros H. unfold validate_variant.
  apply String.eqb_neq in H. now rewrite H.
Qed.

(** [validate_variant] on [auto], once the workspace directory is made. *)
Lemma validate_variant_auto (ctx : Context) (w : World) :
  default gettempdir (param_workspace_dir ctx) ∈ fs w ->
  workspace ctx ∉ fs w ->
  let w1 := mkWorld ({[ workspace ctx ]} ∪ fs w) (echoed w) in
  let out := check_output
               (get_version_args (Path_resolve (param_artifact ctx)))
               (workspace ctx) (fs w1) in
  validate ctx "auto" w =
    match fst out with
    | Raise (CalledProcessError rc stderr) =>
        (Raise (CalledProcessError rc stderr),
         mkWorld
           (filter (fun p => within (workspace ctx) p = false) (snd out))
           (echoed w
            ++ [doctor_message; ""; "Original error:"; stderr])%list)
    | Raise e => (Raise e, mkWorld (snd out) (echoed w))
    | Ok output =>
        match is_enterprise_of_output json_loads output with
        | Ok enterprise =>
            (Ok (if enterprise then "enterprise" else "oss"),
             mkWorld
               (filter (fun p => within (workspace ctx) p = false) (snd out))
               (echoed w))
        | Raise e => (Raise e, mkWorld (snd out) (echoed w))
        end
    end.
Proof.
  intros Hbase Hfresh w1 out. unfold validate_variant.
  rewrite String.eqb_refl. cbn [negb].
  unfold workspace_of in *.
  unfold bind at 1. rewrite (Path_mkdir_creates _ _ w Hbase Hfresh). fold w1.
  unfold bind at 1, try_except. rewrite is_enterprise_run. cbv zeta.
  fold out. destruct (fst out) as [output|e] eqn:Eo.
  - destruct (is_enterprise_of_output json_loads output) as [b|e] eqn:Ec.
    + reflexivity.
    + destruct (is_enterprise_of_output_raises output e Ec) as [->|[->| ->]];
        reflexivity.
  - destruct e; try reflexivity.
    unfold bind, rmtree, echo, raise. simpl.
    rewrite <- !List.app_assoc. reflexivity.
Qed.

(** On the two paths the code provides for, a verdict and a failed artifact
    process, the workspace directory is gone when [validate_variant] is
    left. *)
Lemma validate_variant_cleans (ctx : Context) (w : World) :
  default gettempdir (param_workspace_dir ctx) ∈ fs w ->
  workspace ctx ∉ fs w ->
  let out := validate ctx "auto" w in
  (is_ok (fst out) = true
   \/ exists rc stderr, fst out = Raise (CalledProcessError rc stderr)) ->
  workspace ctx ∉ fs (snd out).
Proof.
  intros Hbase Hfresh out Hpath. subst out.
  rewrite (validate_variant_auto ctx w Hbase Hfresh) in *. cbv zeta in *.
  set (o := check_output _ _ _) in *.
  assert (Hgone : forall l,
    workspace ctx
    ∉ fs (mkWorld
            (filter (fun p => within (workspace ctx) p = false) (snd o)) l)).
  { intros l. simpl. rewrite elem_of_filter. intros [H _].
    unfold within in H. now rewrite String.eqb_refl in H. }
  destruct (fst o) as [output|e].
  - destruct (is_enterprise_of_output json_loads output) as [b|e] eqn:Ec.
    + apply Hgone.
    + destruct Hpath as [H|(rc & err & H)]; [discriminate H |].
      simpl in H. injection H as ->.
      destruct (is_enterprise_of_output_raises _ _ Ec) as [?|[?|?]];
        discriminate.
  - destruct e; try (destruct Hpath as [H|(rc & err & H)]; discriminate H).
    apply Hgone.
Qed.

(** On the third path, an output that [is_enterprise] cannot read, the
    exception leaves [validate_variant] with the file tree as the artifact
    process left it: nothing removes the workspace directory. *)
Lemma validate_variant_unreadable (ctx : Context) (w : World)
    (output : string) (e : exn) :
  default gettempdir (param_workspace_dir ctx) ∈ fs w ->
  workspace ctx ∉ fs w ->
  let out := check_output
               (get_version_args (Path_resolve (param_artifact ctx)))
               (workspace ctx) ({[ workspace ctx ]} ∪ fs w) in
  fst out = Ok output ->
  is_enterprise_of_output json_loads output = Raise e ->
  validate ctx "auto" w = (Raise e, mkWorld (snd out) (echoed w)).
Proof.
  intros Hbase Hfresh out Ho He.
  rewrite (validate_variant_auto ctx w Hbase Hfresh). cbv zeta. simpl fs.
  fold out. now rewrite Ho, He.
Qed.

End Caller.

(** *** The probe on worked outputs *)

Import Examples.

Example classify_enterprise :
  is_enterprise_of_output Json.loads ee_output = Ok true.
Proof. vm_compute. reflexivity. Qed.

Example classify_open_source :
  is_enterprise_of_output Json.loads oss_output = Ok false.
Proof. vm_compute. reflexivity. Qed.

Example classify_noise_only :
  is_enterprise_of_output Json.loads noise_only_output = Raise JSONDecodeError.
Proof. vm_compute. reflexivity. Qed.

Example classify_no_variant :
  is_enterprise_of_output Json.loads no_variant_output
  = Raise (KeyError (KStr "variant")).
Proof. vm_compute. reflexivity. Qed.

(** [classify_malformed] on an output of noise lines only. *)
Lemma classify_malformed_witness :
  is_enterprise_of_output Json.loads noise_only_output = Raise JSONDecodeError.
Proof.
  refine (proj1 (proj2 (proj2
            (classify_malformed Json.loads noise_only_output [] _)))
            eq_refl eq_refl).
  exact (filter_drops_noise (splitlines noise_only_output)).
Defined.

(** [is_enterprise_deterministic] on two runs that differ in artifact path,
    workspace and file tree. *)
Lemma is_enterprise_deterministic_witness :
  fst (is_enterprise Json.loads (prints ee_output) "/b" "/tmp/w2"
         (mkWorld ∅ ["x"]))
  = fst (is_enterprise Json.loads (prints ee_output) "/a" "/tmp/w1" world0).
Proof.
  exact (proj2 (is_enterprise_deterministic Json.loads (prints ee_output)
                  (prints ee_output) "/a" "/b" "/tmp/w1" "/tmp/w2"
                  world0 (mkWorld ∅ ["x"]) ee_output eq_refl eq_refl)).
Defined.

(** C8.  [validate_variant] on three artifacts, in a file tree that holds
    [/tmp], with [3f2a] drawn as directory name.  An artifact that reports
    an enterprise version: the verdict is returned and the workspace
    directory is gone.  An artifact that exits with status 1: the exception
    is passed on and the workspace directory is gone.  An artifact that
    exits with status 0 and prints text that is no JSON text: the
    [JSONDecodeError] leaves [validate_variant] and the workspace directory
    it made is still there. *)
Theorem validate_variant_unreadable_report_leaves_workspace :
  (fst (validate0 (prints ee_output)) = Ok "enterprise"
   /\ "/tmp/3f2a" ∉ fs (snd (validate0 (prints ee_output))))
  /\ (fst (validate0 (exits_nonzero 1 "boom"))
      = Raise (CalledProcessError 1 "boom")
      /\ "/tmp/3f2a" ∉ fs (snd (validate0 (exits_nonzero 1 "boom"))))
  /\ (fst (validate0 (prints "no version here")) = Raise JSONDecodeError
      /\ "/tmp/3f2a" ∈ fs (snd (validate0 (prints "no version here")))).
Proof.
  split; [|split]; split.
  - vm_compute. reflexivity.
  - apply (proj1 (bool_decide_eq_false _)). vm_compute. reflexivity.
  - vm_compute. reflexivity.
  - apply (proj1 (bool_decide_eq_false _)). vm_compute. reflexivity.
  - vm_compute. reflexivity.
  - apply (proj1 (bool_decide_eq_true _)). vm_compute. reflexivity.
Qed.



End ProbeSpec.

(** ** Node reference resolution *)

Module ResolverSpec.

Import Text TextFacts Cli.

Section Cluster.

Variables Container Node : Type.
Variable to_dict : Container -> InspectData.
Variable to_node : Container -> Node.
Variable str_upper : string -> string.
Variables masters agents public_agents : string -> list Container.
Variable set_iter : list Container -> list Container.

Abbreviation accepts := (accepted Container to_dict str_upper).
Abbreviation find := (find_node Container Node to_dict to_node str_upper).
Abbreviation resolve :=
  (validate_node_reference Container Node to_dict to_node str_upper
     masters agents public_agents set_iter).

Abbreviation members :=
  (Cli.members Container masters agents public_agents).

Lemma accepted_spec (c : Container) (value : string) :
  value ∈ accepts c <->
  value = e2e_reference (to_dict c)
  \/ value = str_upper (e2e_reference (to_dict c))
  \/ value = ip_address (to_dict c)
  \/ value = docker_container_name (to_dict c)
  \/ value = docker_container_id (to_dict c).
Proof.
  unfold accepted. rewrite !elem_of_cons, elem_of_nil. tauto.
Qed.

(** The loop returns at the first container whose tuple holds the value. *)
Lemma find_node_Some (l : list Container) (value : string) (node : Node) :
  find l value = Some node <->
  exists pre c post,
    l = (pre ++ c :: post)%list
    /\ value ∈ accepts c
    /\ (forall c', c' ∈ pre -> value ∉ accepts c')
    /\ node = to_node c.
Proof.
  induction l as [|c0 l IH]; simpl.
  - split; [discriminate |].
    intros (pre & c & post & E & _). destruct pre; discriminate E.
  - case_bool_decide as Hc0.
    + split.
      * intros E. injection E as <-. exists [], c0, l.
        repeat split; auto. intros c' Hc'. inversion Hc'.
      * intros (pre & c & post & E & Hc & Hpre & ->).
        destruct pre as [|c1 pre]; simpl in E; injection E as E1 E2.
        -- now rewrite E1.
        -- exfalso. apply (Hpre c1); [left | now rewrite <- E1].
    + rewrite IH. split.
      * intros (pre & c & post & -> & Hc & Hpre & ->).
        exists (c0 :: pre), c, post. repeat split; auto.
        intros c' Hc'. apply elem_of_cons in Hc' as [->|Hc']; auto.
      * intros (pre & c & post & E & Hc & Hpre & ->).
        destruct pre as [|c1 pre]; simpl in E; injection E as E1 E2.
        -- exfalso. apply Hc0. now rewrite E1.
        -- exists pre, c, post. repeat split; auto.
           intros c' Hc'. apply Hpre. now right.
Qed.

Lemma find_node_None (l : list Container) (value : string) :
  find l value = None <-> forall c, c ∈ l -> value ∉ accepts c.
Proof.
  induction l as [|c0 l IH]; simpl.
  - split; [intros _ c Hc; inversion Hc | reflexivity].
  - case_bool_decide as Hc0.
    + split; [discriminate |]. intros H. exfalso.
      apply (H c0); [left | exact Hc0].
    + rewrite IH. split.
      * intros H c Hc. apply elem_of_cons in Hc as [->|Hc]; auto.
      * intros H c Hc. apply H. now right.
Qed.

Lemma resolve_unfold (ctx : Context) (value : string) :
  resolve ctx value =
    match find (set_iter (members ctx)) value with
    | Some node => Ok node
    | None =>
        Raise (BadParameter
                 (no_such_node_message (param_cluster_id ctx) value))
    end.
Proof. reflexivity. Qed.

(** The cluster id and the reference are quoted in the message. *)
Lemma message_quotes (cluster_id value : string) :
  exists a b c,
    no_such_node_message cluster_id value =
      a ++ (dquote ++ cluster_id ++ dquote) ++ b
        ++ (dquote ++ value ++ dquote) ++ c.
Proof.
  exists "No such node in cluster ",
         " with IP address, Docker container ID or node reference ",
         ". Node references can be seen with ``dcos_docker inspect``.".
  unfold no_such_node_message. now rewrite !string_app_assoc.
Qed.

(** When no container of the cluster holds the value, the loop runs to its
    end and the exception is raised. *)
Lemma resolve_raises (ctx : Context) (value : string) :
  (forall c, c ∈ set_iter (members ctx) -> c ∈ members ctx) ->
  (forall c, c ∈ members ctx -> value ∉ accepts c) ->
  resolve ctx value =
    Raise (BadParameter (no_such_node_message (param_cluster_id ctx) value)).
Proof.
  intros Hset Hnone.
  assert (E : find (set_iter (members ctx)) value = None).
  { apply find_node_None. intros c Hc. apply Hnone, Hset, Hc. }
  now rewrite resolve_unfold, E.
Qed.

(** C6.  The strings [validate_node_reference] accepts for a container are
    exactly its stored reference, that reference in upper case, its IP
    address, its container name and its container id.  The containers
    searched are the masters, the agents and the public agents of the
    cluster: the call returns a node exactly when some container of that
    set holds the value in its tuple, and the node is that of the first
    such container in the order in which the set is visited; and for a
    container of any of the three roles, every string of its tuple resolves
    to the node of a container of the cluster that holds it.  In
    particular, in a cluster whose only container is a master with the
    reference [master_0], the values [master_0], [MASTER_0], the IP address
    and the container id all resolve to the node of that master. *)
Theorem resolve_spec :
  (forall c value,
     value ∈ accepted Container to_dict str_upper c <->
     value = e2e_reference (to_dict c)
     \/ value = str_upper (e2e_reference (to_dict c))
     \/ value = ip_address (to_dict c)
     \/ value = docker_container_name (to_dict c)
     \/ value = docker_container_id (to_dict c))
  /\ (forall ctx value node,
        resolve ctx value = Ok node <->
        exists pre c post,
          set_iter (masters (param_cluster_id ctx)
                    ++ agents (param_cluster_id ctx)
                    ++ public_agents (param_cluster_id ctx))%list
          = (pre ++ c :: post)%list
          /\ value ∈ accepts c
          /\ (forall c', c' ∈ pre -> value ∉ accepts c')
          /\ node = to_node c)
  /\ (forall ctx c value,
        (forall x,
           x ∈ set_iter (masters (param_cluster_id ctx)
                         ++ agents (param_cluster_id ctx)
                         ++ public_agents (param_cluster_id ctx))%list
           <-> x ∈ masters (param_cluster_id ctx)
               \/ x ∈ agents (param_cluster_id ctx)
               \/ x ∈ public_agents (param_cluster_id ctx)) ->
        c ∈ masters (param_cluster_id ctx)
        \/ c ∈ agents (param_cluster_id ctx)
        \/ c ∈ public_agents (param_cluster_id ctx) ->
        value ∈ accepts c ->
        exists c',
          (c' ∈ masters (param_cluster_id ctx)
           \/ c' ∈ agents (param_cluster_id ctx)
           \/ c' ∈ public_agents (param_cluster_id ctx))
          /\ value ∈ accepts c'
          /\ resolve ctx value = Ok (to_node c'))
  /\ (forall ctx m value,
        masters (param_cluster_id ctx) = [m] ->
        agents (param_cluster_id ctx) = [] ->
        public_agents (param_cluster_id ctx) = [] ->
        (forall c, c ∈ set_iter [m] <-> c ∈ [m]) ->
        e2e_reference (to_dict m) = "master_0" ->
        str_upper "master_0" = "MASTER_0" ->
        value ∈ ["master_0"; "MASTER_0"; ip_address (to_dict m);
                 docker_container_id (to_dict m)] ->
        resolve ctx value = Ok (to_node m)).
Proof.
  split; [exact accepted_spec |]. split; [|split].
  - intros ctx value node.
    change (masters (param_cluster_id ctx) ++ agents (param_cluster_id ctx)
            ++ public_agents (param_cluster_id ctx))%list
      with (members ctx).
    rewrite resolve_unfold, <- find_node_Some.
    destruct (find _ _); split; congruence.
  - intros ctx c value Hset Hc Hv.
    change (masters (param_cluster_id ctx) ++ agents (param_cluster_id ctx)
            ++ public_agents (param_cluster_id ctx))%list
      with (members ctx) in Hset.
    rewrite resolve_unfold.
    destruct (find (set_iter (members ctx)) value) as [node|] eqn:E.
    + apply find_node_Some in E as (pre & c' & post & El & Hv' & _ & ->).
      exists c'. repeat split; auto.
      apply Hset. rewrite El. apply elem_of_app. right. left.
    + exfalso. apply (proj1 (find_node_None _ _) E c); [|exact Hv].
      apply Hset, Hc.
  - intros ctx m value Hm Ha Hp Hset Href Hup Hv.
    rewrite resolve_unfold. unfold Cli.members. rewrite Hm, Ha, Hp.
    cbn [app].
    assert (Hacc : value ∈ accepts m).
    { apply accepted_spec. rewrite Href, Hup.
      rewrite !elem_of_cons, elem_of_nil in Hv. tauto. }
    destruct (set_iter [m]) as [|c l] eqn:E.
    + exfalso. assert (H : m ∈ []) by (apply Hset; left). inversion H.
    + assert (c = m) as ->.
      { assert (H : c ∈ [m]) by (apply Hset; left).
        apply elem_of_cons in H as [H|H]; [exact H | inversion H]. }
      simpl. now rewrite (bool_decide_eq_true_2 _ Hacc).
Qed.

(** C7.  If no container of the cluster holds the value in its tuple, the
    call returns no node: it raises [click.BadParameter], and the message
    quotes both the cluster id and the value as given. *)
Theorem resolve_not_found (ctx : Context) (value : string) :
  (forall c, c ∈ set_iter (members ctx) -> c ∈ members ctx) ->
  (forall c, c ∈ members ctx -> value ∉ accepts c) ->
  resolve ctx value =
    Raise (BadParameter (no_such_node_message (param_cluster_id ctx) value))
  /\ (forall node, resolve ctx value <> Ok node)
  /\ exists a b c,
       no_such_node_message (param_cluster_id ctx) value =
         a ++ (dquote ++ param_cluster_id ctx ++ dquote) ++ b
           ++ (dquote ++ value ++ dquote) ++ c.
Proof.
  intros Hset Hnone. rewrite (resolve_raises ctx value Hset Hnone).
  split; [reflexivity |]. split; [discriminate | apply message_quotes].
Qed.

(** C10.  Take a value that agrees with the stored reference of some
    container when both are put in upper case, but is, for every container
    of the cluster, neither the stored reference nor that reference in upper
    case.  No container accepts it through its reference: a container
    accepts it only as its IP address, container name or container id.  So,
    being none of these for any container, it resolves to no node and the
    call raises the not-found error. *)
Theorem resolve_mixed_case (ctx : Context) (value : string) :
  (forall c, c ∈ set_iter (members ctx) -> c ∈ members ctx) ->
  (exists c, c ∈ members ctx
             /\ str_upper value = str_upper (e2e_reference (to_dict c))) ->
  (forall c, c ∈ members ctx ->
     value <> e2e_reference (to_dict c)
     /\ value <> str_upper (e2e_reference (to_dict c))) ->
  (forall c, c ∈ members ctx ->
     (value ∈ accepts c <->
      value = ip_address (to_dict c)
      \/ value = docker_container_name (to_dict c)
      \/ value = docker_container_id (to_dict c)))
  /\ ((forall c, c ∈ members ctx ->
         value <> ip_address (to_dict c)
         /\ value <> docker_container_name (to_dict c)
         /\ value <> docker_container_id (to_dict c)) ->
      (forall node, resolve ctx value <> Ok node)
      /\ resolve ctx value =
           Raise (BadParameter
                    (no_such_node_message (param_cluster_id ctx) value))).
Proof.
  intros Hset _ Href.
  assert (Hslots : forall c, c ∈ members ctx ->
            (value ∈ accepts c <->
             value = ip_address (to_dict c)
             \/ value = docker_container_name (to_dict c)
             \/ value = docker_container_id (to_dict c))).
  { intros c Hc. rewrite accepted_spec. specialize (Href c Hc). tauto. }
  split; [exact Hslots |].
  intros Hother.
  assert (E : resolve ctx value =
                Raise (BadParameter
                         (no_such_node_message (param_cluster_id ctx) value))).
  { apply (resolve_raises ctx value Hset).
    intros c Hc. rewrite (Hslots c Hc). specialize (Hother c Hc). tauto. }
  rewrite E. split; [discriminate | reflexivity].
Qed.

End Cluster.

(** *** The cluster of one master *)

Import Examples Examples3.

Example resolve_unknown_index :
  resolve0 "master_1" =
    Raise (BadParameter
      (q ("No such node in cluster 'default' with IP address, Docker "
          ++ "container ID or node reference 'master_1'. "
          ++ "Node references can be seen with ``dcos_docker inspect``."))).
Proof. vm_compute. reflexivity. Qed.

Example resolve_by_name :
  resolve0 "dcos-e2e-default-master-0" = Ok ("10.0.0.5", "abc123").
Proof. vm_compute. reflexivity. Qed.

(** [resolve_spec] on the four references of the one master, and on a
    cluster of a master, an agent and a public agent visited in reverse
    order: references of the agent and of the public agent resolve to
    their nodes. *)
Lemma resolve_spec_witness :
  (resolve0 "master_0" = Ok ("10.0.0.5", "abc123")
   /\ resolve0 "MASTER_0" = Ok ("10.0.0.5", "abc123")
   /\ resolve0 "10.0.0.5" = Ok ("10.0.0.5", "abc123")
   /\ resolve0 "abc123" = Ok ("10.0.0.5", "abc123"))
  /\ (resolve3 (@List.rev _) "AGENT_0" = Ok ("10.0.0.6", "def456")
      /\ resolve3 (@List.rev _) "0789ab" = Ok ("10.0.0.7", "0789ab"))
  /\ exists c',
       (c' ∈ [master0] \/ c' ∈ [agent0] \/ c' ∈ [public_agent0])
       /\ "dcos-e2e-default-agent-0"
          ∈ accepted InspectData (fun c => c) ascii_upper c'
       /\ resolve3 (@List.rev _) "dcos-e2e-default-agent-0"
          = Ok (ip_address c', docker_container_id c').
Proof.
  split; [|split].
  - pose proof (fun value =>
      proj2 (proj2 (proj2 (resolve_spec InspectData (string * string)
        (fun c => c) (fun c => (ip_address c, docker_container_id c))
        ascii_upper (fun _ => [master0]) (fun _ => []) (fun _ => [])
        (fun l => l))))
        ctx0 master0 value eq_refl eq_refl eq_refl (fun c => iff_refl _)
        eq_refl eq_refl) as H.
    repeat split; apply H; simpl; set_solver.
  - pose proof (fun value node =>
      proj2 (proj1 (proj2 (resolve_spec InspectData (string * string)
        (fun c => c) (fun c => (ip_address c, docker_container_id c))
        ascii_upper (fun _ => [master0]) (fun _ => [agent0])
        (fun _ => [public_agent0]) (@List.rev _))) ctx0 value node)) as H.
    split; apply H.
    + exists [public_agent0], agent0, [master0].
      split; [reflexivity |]. split; [|split; [|reflexivity]].
      * apply (proj1 (bool_decide_eq_true _)). vm_compute. reflexivity.
      * intros c Hc. apply list_elem_of_singleton in Hc as ->.
        apply (proj1 (bool_decide_eq_false _)). vm_compute. reflexivity.
    + exists [], public_agent0, [agent0; master0].
      split; [reflexivity |]. split; [|split; [|reflexivity]].
      * apply (proj1 (bool_decide_eq_true _)). vm_compute. reflexivity.
      * intros c Hc. inversion Hc.
  - apply (proj1 (proj2 (proj2 (resolve_spec InspectData (string * string)
      (fun c => c) (fun c => (ip_address c, docker_container_id c))
      ascii_upper (fun _ => [master0]) (fun _ => [agent0])
      (fun _ => [public_agent0]) (@List.rev _))))
      ctx0 agent0 "dcos-e2e-default-agent-0").
    + intros x. cbn. rewrite !elem_of_cons, !elem_of_nil. tauto.
    + right. left. left.
    + apply (proj1 (bool_decide_eq_true _)). vm_compute. reflexivity.
Defined.

(** [resolve_not_found] on a reference with an index no master has. *)
Lemma resolve_not_found_witness :
  resolve0 "master_1" =
    Raise (BadParameter (no_such_node_message "default" "master_1")).
Proof.
  refine (proj1 (resolve_not_found InspectData (string * string) (fun c => c)
    (fun c => (ip_address c, docker_container_id c)) ascii_upper
    (fun _ => [master0]) (fun _ => []) (fun _ => []) (fun l => l)
    ctx0 "master_1" (fun c H => H) _)).
  intros c Hc. apply list_elem_of_singleton in Hc as ->.
  apply (proj1 (bool_decide_eq_false _)). vm_compute. reflexivity.
Defined.

(** [resolve_mixed_case] on [Master_0] against the stored [master_0]. *)
Lemma resolve_mixed_case_witness :
  ascii_upper "Master_0" = ascii_upper (e2e_reference master0)
  /\ resolve0 "Master_0" =
       Raise (BadParameter (no_such_node_message "default" "Master_0")).
Proof.
  split; [reflexivity |].
  refine (proj2 (proj2 (resolve_mixed_case InspectData (string * string)
    (fun c => c) (fun c => (ip_address c, docker_container_id c)) ascii_upper
    (fun _ => [master0]) (fun _ => []) (fun _ => []) (fun l => l)
    ctx0 "Master_0" (fun c H => H) _ _) _)).
  - exists master0. split; [left | reflexivity].
  - intros c Hc. apply list_elem_of_singleton in Hc as ->.
    split; discriminate.
  - intros c Hc. apply list_elem_of_singleton in Hc as ->.
    repeat split; discriminate.
Defined.

End ResolverSpec.

(** * Further properties *)

(** ** The image build pipeline, beyond the claims *)

Module BuildFacts.

Import Text DockerBuild TextFacts BuildSpec Words.

Section Client.

Variable current_parent : string.
Variable daemon_build : BuildCall -> gmap string ImageId -> option ImageId.

Abbreviation build := (build_docker_image current_parent daemon_build).

Lemma base_call_well_tagged path tag : well_tagged tag (base_call path tag).
Proof. unfold well_tagged, base_call. simpl. auto. Qed.

Lemma docker_call_well_tagged tag version :
  well_tagged tag (docker_call current_parent tag version).
Proof. unfold well_tagged, docker_call. simpl. auto. Qed.

(** Every run of [build_docker_image] ends in one of five ways: before any
    request, after a failed base build, at the version lookup, after a
    failed second build, or normally. *)
Lemma build_states tag d v st :
  let out := build tag d v st in
  let log := build_log st in
  let store := image_store st in
  (snd out = st /\ is_ok (fst out) = false)
  \/ exists path,
       _base_dockerfile current_parent d = Ok path
       /\ let base := base_call path tag in
          (daemon_build base store = None
           /\ out = (Raise BuildError, mkDaemon store (log ++ [base])%list))
          \/ exists img,
               daemon_build base store = Some img
               /\ let store1 := <[tag ++ ":base" := img]> store in
                  (docker_versions v = None
                   /\ out = (Raise (KeyError (KDockerVersion v)),
                             mkDaemon store1 (log ++ [base])%list))
                  \/ exists version,
                       docker_versions v = Some version
                       /\ let docker :=
                            docker_call current_parent tag version in
                          let log2 := (log ++ [base; docker])%list in
                          (daemon_build docker store1 = None
                           /\ out = (Raise BuildError, mkDaemon store1 log2))
                          \/ exists img2,
                               daemon_build docker store1 = Some img2
                               /\ out = (Ok tt,
                                         mkDaemon (<[tag := img2]> store1)
                                                  log2).
Proof.
  cbv zeta.
  destruct (_base_dockerfile current_parent d) as [path|e] eqn:Hp.
  - right. exists path. split; [reflexivity |].
    rewrite (build_after_base current_parent daemon_build tag d v st path Hp).
    destruct (daemon_build (base_call path tag) (image_store st))
      as [img|] eqn:Hb.
    + right. exists img. split; [reflexivity |].
      rewrite (images_build_ok _ _ _ _ Hb).
      destruct (docker_versions v) as [version|] eqn:Hv.
      * right. exists version. split; [reflexivity |].
        unfold images_build. cbn [image_store build_log].
        change (bc_tag (base_call path tag)) with (tag ++ ":base").
        destruct (daemon_build (docker_call current_parent tag version) _)
          as [img2|] eqn:Hd.
        -- right. exists img2. split; [reflexivity |].
           now rewrite <- List.app_assoc.
        -- left. split; [reflexivity |]. now rewrite <- List.app_assoc.
      * left. split; reflexivity.
    + left. split; [reflexivity |].
      now rewrite (images_build_fails _ _ _ Hb).
  - left. unfold build_docker_image, bind, lift_result. rewrite Hp.
    split; reflexivity.
Qed.

(** X1.  Whatever the arguments and whatever the daemon answers,
    [build_docker_image] leaves every tag of the image store other than the
    caller's tag and that tag followed by [:base] as it was. *)
Theorem build_frame tag d v st (other : string) :
  other <> tag -> other <> tag ++ ":base" ->
  untouched other st (snd (build tag d v st)).
Proof.
  intros H1 H2. unfold untouched.
  destruct (build_states tag d v st) as [[E _]|(path & _ & H)];
    [now rewrite E |].
  cbv zeta in H.
  destruct H as [[_ E]|(img & _ & [[_ E]|(version & _ & H)])];
    [| |destruct H as [[_ E]|(img2 & _ & E)]];
    rewrite E; cbn [snd image_store];
    rewrite ?lookup_insert_ne by congruence; reflexivity.
Qed.

(** X2.  The requests received before stay in the daemon's log, and a run
    adds at most two: each asks for the removal of intermediate containers
    and is tagged with the caller's tag or with that tag followed by
    [:base]. *)
Theorem build_requests tag d v st :
  exists sent,
    build_log (snd (build tag d v st)) = (build_log st ++ sent)%list
    /\ List.length sent <= 2
    /\ Forall (well_tagged tag) sent.
Proof.
  destruct (build_states tag d v st) as [[E _]|(path & _ & H)].
  - exists []. rewrite E, List.app_nil_r. repeat split; auto.
  - cbv zeta in H.
    pose proof (base_call_well_tagged path tag) as Wb.
    destruct H as [[_ E]|(img & _ & [[_ E]|(version & _ & H)])].
    + exists [base_call path tag]. rewrite E. simpl. repeat split; auto.
    + exists [base_call path tag]. rewrite E. simpl. repeat split; auto.
    + pose proof (docker_call_well_tagged tag version) as Wd.
      exists [base_call path tag; docker_call current_parent tag version].
      destruct H as [[_ E]|(img2 & _ & E)]; rewrite E; simpl;
        repeat split; auto.
Qed.

(** X3.  [build_docker_image] returns normally exactly when the distribution
    and the version are listed and the daemon completes both builds, the
    second one asked of a store in which the base tag already names the
    image of the first; both tags then name the images built. *)
Theorem build_ok_iff tag d v st :
  fst (build tag d v st) = Ok tt <->
  exists path version img img2,
    _base_dockerfile current_parent d = Ok path
    /\ docker_versions v = Some version
    /\ daemon_build (base_call path tag) (image_store st) = Some img
    /\ daemon_build (docker_call current_parent tag version)
                    (<[tag ++ ":base" := img]> (image_store st)) = Some img2
    /\ image_store (snd (build tag d v st))
       = <[tag := img2]> (<[tag ++ ":base" := img]> (image_store st)).
Proof.
  split.
  - intros Hok.
    destruct (build_states tag d v st) as [[_ E]|(path & Hp & H)].
    + rewrite Hok in E. discriminate.
    + cbv zeta in H.
      destruct H as [[_ E]|(img & Hb & [[_ E]|(version & Hv & H)])];
        [| |destruct H as [[_ E]|(img2 & Hd & E)]];
        try (rewrite E in Hok; discriminate).
      exists path, version, img, img2. rewrite E. auto.
  - intros (path & version & img & img2 & Hp & Hv & Hb & Hd & _).
    rewrite (build_after_base current_parent daemon_build tag d v st path Hp).
    rewrite (images_build_ok _ _ _ _ Hb), Hv.
    unfold images_build. cbn [image_store build_log].
    change (bc_tag (base_call path tag)) with (tag ++ ":base").
    now rewrite Hd.
Qed.

(** X4.  The base build contexts of two distributions coincide only if the
    distributions do, and none of them is the context of the runtime
    layer. *)
Theorem base_contexts_distinct d1 d2 path :
  _base_dockerfile current_parent d1 = Ok path ->
  (_base_dockerfile current_parent d2 = Ok path -> d1 = d2)
  /\ path <> _docker_dockerfile current_parent.
Proof.
  unfold _base_dockerfile, _docker_dockerfile, path_join.
  destruct (dcos_docker_distros d1) as [s1|] eqn:E1; [|discriminate].
  intros H1. injection H1 as <-. split.
  - destruct (dcos_docker_distros d2) as [s2|] eqn:E2; [|discriminate].
    intros H2. injection H2 as H2.
    rewrite !string_app_assoc in H2. push_app.
    apply String.app_inj in H2. injection H2 as H2.
    destruct d1, d2; simpl in E1, E2; try discriminate; try reflexivity;
      injection E1 as <-; injection E2 as <-; discriminate.
  - intros H. rewrite !string_app_assoc in H. push_app.
    apply String.app_inj in H. discriminate.
Qed.

End Client.

(** [build_frame] on a store that holds a third image. *)
Lemma build_frame_witness :
  untouched "other"
    (mkDaemon {[ "other" := 1%N ]} [])
    (snd (build_docker_image "/pkg" obliging_daemon "img" CENTOS_7 v1_13_1
            (mkDaemon {[ "other" := 1%N ]} []))).
Proof.
  apply build_frame; discriminate.
Defined.

(** [base_contexts_distinct] for [CENTOS_7]. *)
Lemma base_contexts_distinct_witness :
  "/pkg/resources/dockerfiles/base/centos-7" <> _docker_dockerfile "/pkg".
Proof.
  exact (proj2 (base_contexts_distinct "/pkg" CENTOS_7 COREOS
                  "/pkg/resources/dockerfiles/base/centos-7" eq_refl)).
Defined.

End BuildFacts.

(** ** The probe and its caller, beyond the claims *)

Module ProbeFacts.

Import Text TextFacts Cli ProbeSpec Words.

(** [splitlines] gives back the lines that [unlines] put together. *)
Lemma splitlines_line (line rest : string) :
  no_linebreak line = true ->
  splitlines (line ++ String (ascii_of_nat 10) rest) = line :: splitlines rest.
Proof.
  induction line as [|c line IH]; intros H; push_app.
  - reflexivity.
  - unfold no_linebreak in H. simpl in H.
    apply andb_true_iff in H as [Hc Hl]. apply negb_true_iff in Hc.
    cbn [splitlines]. rewrite Hc. now rewrite (IH Hl).
Qed.

Lemma splitlines_unlines (lines : list string) :
  Forall (fun line => no_linebreak line = true) lines ->
  splitlines (unlines lines) = lines.
Proof.
  induction 1 as [|line lines Hl _ IH]; [reflexivity |].
  cbn [unlines]. rewrite (splitlines_line _ _ Hl). now rewrite IH.
Qed.

Lemma filter_keep_line_twice (lines : list string) :
  List.filter keep_line (List.filter keep_line lines)
  = List.filter keep_line lines.
Proof.
  induction lines as [|line lines IH]; [reflexivity |].
  simpl. destruct (keep_line line) eqn:E; [|exact IH].
  simpl. rewrite E. now rewrite IH.
Qed.

Lemma Forall_filter_keep (P : string -> Prop) (lines : list string) :
  Forall P lines -> Forall P (List.filter keep_line lines).
Proof.
  induction 1 as [|line lines Hl _ IH]; [constructor |].
  simpl. destruct (keep_line line); [constructor; assumption | exact IH].
Qed.

Section Reader.

Variable json_loads : string -> option pyval.

(** X5.  Noise lines have no influence on the verdict: an output made of
    lines, each ended by LF, is classified like the output made of its
    lines that are no noise. *)
Theorem classify_ignores_noise (lines kept : list string) :
  Forall (fun line => no_linebreak line = true) lines ->
  drops_noise lines kept ->
  is_enterprise_of_output json_loads (unlines lines)
  = is_enterprise_of_output json_loads (unlines kept).
Proof.
  intros Hl Hk. apply drops_noise_filter in Hk. subst kept.
  unfold is_enterprise_of_output.
  rewrite (splitlines_unlines _ Hl).
  rewrite (splitlines_unlines _ (Forall_filter_keep _ _ Hl)).
  now rewrite filter_keep_line_twice.
Qed.

End Reader.

Section Caller.

Variable json_loads : string -> option pyval.
Variable check_output :
  list string -> string -> gset string -> result string * gset string.
Variable Path_resolve : string -> string.
Variable gettempdir : string.
Variable uuid4_hex : string.

Abbreviation validate :=
  (validate_variant json_loads check_output Path_resolve gettempdir uuid4_hex).
Abbreviation workspace := (workspace_of gettempdir uuid4_hex).

(** The run of the artifact in the workspace just made. *)
Abbreviation artifact_run ctx w :=
  (check_output (get_version_args (Path_resolve (param_artifact ctx)))
                (workspace ctx) ({[ workspace ctx ]} ∪ fs w)).

(** X6.  When [validate_variant] returns a verdict or passes on the failure
    of the artifact process, the file tree is the one the process left
    without the workspace directory and what lies below it: these paths are
    gone and every other path is as the process left it. *)
Theorem validate_variant_removes_workspace (ctx : Context) (w : World) :
  default gettempdir (param_workspace_dir ctx) ∈ fs w ->
  workspace ctx ∉ fs w ->
  (is_ok (fst (validate ctx "auto" w)) = true
   \/ exists rc stderr,
        fst (validate ctx "auto" w) = Raise (CalledProcessError rc stderr)) ->
  forall p,
    p ∈ fs (snd (validate ctx "auto" w)) <->
    within (workspace ctx) p = false /\ p ∈ snd (artifact_run ctx w).
Proof.
  intros Hbase Hfresh Hpath p.
  rewrite (validate_variant_auto json_loads check_output Path_resolve
             gettempdir uuid4_hex ctx w Hbase Hfresh) in *.
  cbv zeta in *. cbn [fs] in *.
  set (o := check_output _ _ _) in *.
  destruct (fst o) as [output|e].
  - destruct (is_enterprise_of_output json_loads output) as [b|e] eqn:Ec.
    + cbn [snd fs]. rewrite elem_of_filter. reflexivity.
    + destruct Hpath as [H|(rc & err & H)]; [discriminate H |].
      cbn [fst] in H. injection H as ->.
      destruct (is_enterprise_of_output_raises _ _ _ Ec) as [?|[?|?]];
        discriminate.
  - destruct e; try (destruct Hpath as [H|(rc & err & H)]; discriminate H).
    cbn [snd fs]. rewrite elem_of_filter. reflexivity.
Qed.

(** The error of [mkdir] ends the call before anything else is done. *)
Lemma validate_variant_mkdir_raises (ctx : Context) (w : World) :
  workspace ctx ∈ fs w
  \/ default gettempdir (param_workspace_dir ctx) ∉ fs w ->
  exists path,
    validate ctx "auto" w = (Raise (FileExistsError path), w)
    \/ validate ctx "auto" w = (Raise (FileNotFoundError path), w).
Proof.
  intros H. exists (workspace ctx).
  unfold validate_variant. rewrite String.eqb_refl. cbn [negb].
  unfold bind, Path_mkdir, workspace_of. cbv zeta.
  case_bool_decide as Hw; [left; reflexivity |].
  case_bool_decide as Hb; [|right; reflexivity].
  exfalso. destruct H as [H|H]; [apply Hw, H | apply H, Hb].
Qed.

(** X7.  [validate_variant] writes to the terminal only when the artifact
    process failed: then the doctor message, an empty line, the line
    [Original error:] and the captured standard error follow what was
    written before; on every other path, whatever the value and the file
    tree, nothing is written. *)
Theorem validate_variant_echo (ctx : Context) (value : string) (w : World) :
  echoed (snd (validate ctx value w)) =
    (echoed w ++
     match fst (validate ctx value w) with
     | Raise (CalledProcessError _ stderr) =>
         [doctor_message; EmptyString; "Original error:"; stderr]
     | _ => []
     end)%list.
Proof.
  destruct (String.eqb_spec value "auto") as [->|Hvalue].
  - destruct (decide (workspace ctx ∈ fs w)) as [Hin|Hfresh].
    { destruct (validate_variant_mkdir_raises ctx w (or_introl Hin))
        as (path & [E|E]); rewrite E; cbn; now rewrite List.app_nil_r. }
    destruct (decide (default gettempdir (param_workspace_dir ctx) ∈ fs w))
      as [Hbase|Hnobase].
    2: { destruct (validate_variant_mkdir_raises ctx w (or_intror Hnobase))
           as (path & [E|E]); rewrite E; cbn; now rewrite List.app_nil_r. }
    rewrite (validate_variant_auto json_loads check_output Path_resolve
               gettempdir uuid4_hex ctx w Hbase Hfresh).
    cbv zeta. cbn [fs].
    set (o := check_output _ _ _).
    destruct (fst o) as [output|e].
    + destruct (is_enterprise_of_output json_loads output) as [b|e] eqn:Ec.
      * cbn. now rewrite List.app_nil_r.
      * destruct (is_enterprise_of_output_raises _ _ _ Ec) as [->|[->| ->]];
          cbn; now rewrite List.app_nil_r.
    + destruct e; cbn; rewrite ?List.app_nil_r; reflexivity.
  - rewrite (validate_variant_explicit json_loads check_output Path_resolve
               gettempdir uuid4_hex ctx value w Hvalue).
    cbn. now rewrite List.app_nil_r.
Qed.

(** X8.  If the directory to create is there already, or the directory it
    is to be created in is not, [validate_variant] raises the error of
    [mkdir] and leaves the world as it found it: the artifact is not run
    and nothing is removed. *)
Theorem validate_variant_mkdir_fails (ctx : Context) (w : World) :
  workspace ctx ∈ fs w
  \/ default gettempdir (param_workspace_dir ctx) ∉ fs w ->
  exists e,
    validate ctx "auto" w = (Raise e, w)
    /\ (e = FileExistsError (workspace ctx)
        \/ e = FileNotFoundError (workspace ctx)).
Proof.
  intros H. unfold validate_variant. rewrite String.eqb_refl. cbn [negb].
  unfold bind at 1. unfold Path_mkdir, workspace_of. cbv zeta.
  case_bool_decide as Hw.
  - eexists. split; [reflexivity | now left].
  - case_bool_decide as Hb.
    + exfalso. destruct H as [H|H]; [apply Hw, H | apply H, Hb].
    + eexists. split; [reflexivity | now right].
Qed.

(** X9.  With the workspace directory made, [validate_variant] answers
    [enterprise] exactly when the artifact process ended with status 0 and
    its output, without the noise lines and joined with blanks, is JSON
    text for an object whose [variant] entry is the string [ee]. *)
Theorem validate_variant_enterprise_iff (ctx : Context) (w : World) :
  default gettempdir (param_workspace_dir ctx) ∈ fs w ->
  workspace ctx ∉ fs w ->
  fst (validate ctx "auto" w) = Ok "enterprise" <->
  exists output kept d,
    fst (artifact_run ctx w) = Ok output
    /\ drops_noise (splitlines output) kept
    /\ json_loads (join " " kept) = Some (PyDict d)
    /\ d !! "variant" = Some (PyStr "ee").
Proof.
  intros Hbase Hfresh.
  rewrite (validate_variant_auto json_loads check_output Path_resolve
             gettempdir uuid4_hex ctx w Hbase Hfresh).
  cbv zeta. cbn [fs].
  set (o := check_output _ _ _).
  split.
  - intros H. destruct (fst o) as [output|e] eqn:Eo.
    + exists output, (List.filter keep_line (splitlines output)).
      pose proof (classify_cases json_loads output) as C. cbv zeta in C.
      destruct (json_loads _) as [[| | | | | |d]|];
        try (rewrite C in H; discriminate H).
      destruct (d !! "variant") as [variant|] eqn:Ed;
        rewrite C in H; [|discriminate H].
      exists d. repeat split; [apply filter_drops_noise |].
      destruct (py_eq_str variant "ee") eqn:Ev; [|discriminate H].
      apply py_eq_str_spec in Ev. now subst.
    + destruct e; discriminate H.
  - intros (output & kept & d & Ho & Hk & Hj & Hd).
    apply drops_noise_filter in Hk. subst kept. rewrite Ho.
    pose proof (classify_cases json_loads output) as C. cbv zeta in C.
    rewrite Hj, Hd in C. rewrite C. reflexivity.
Qed.

End Caller.

Import Examples.

(** [classify_ignores_noise] on the lines of the enterprise output. *)
Lemma classify_ignores_noise_witness :
  is_enterprise_of_output Json.loads
    (unlines ["Extracting image sha256:0a1b"; "Loaded image: foo.tar";
              q "{'variant': 'ee'}"])
  = is_enterprise_of_output Json.loads (unlines [q "{'variant': 'ee'}"]).
Proof.
  apply classify_ignores_noise.
  - repeat constructor.
  - apply (filter_drops_noise
             ["Extracting image sha256:0a1b"; "Loaded image: foo.tar";
              q "{'variant': 'ee'}"]).
Defined.

(** [validate_variant_removes_workspace] on an artifact that reports an
    enterprise version: [/tmp] stays, the workspace does not. *)
Lemma validate_variant_removes_workspace_witness :
  "/tmp" ∈ fs (snd (validate0 (prints ee_output)))
  /\ "/tmp/3f2a" ∉ fs (snd (validate0 (prints ee_output))).
Proof.
  assert (Hbase : default "/tmp" (param_workspace_dir ctx0) ∈ fs world0).
  { apply (proj1 (bool_decide_eq_true _)). vm_compute. reflexivity. }
  assert (Hfresh : workspace_of "/tmp" "3f2a" ctx0 ∉ fs world0).
  { apply (proj1 (bool_decide_eq_false _)). vm_compute. reflexivity. }
  pose proof (validate_variant_removes_workspace Json.loads (prints ee_output)
                (fun p => p) "/tmp" "3f2a" ctx0 world0 Hbase Hfresh
                (or_introl eq_refl)) as H.
  split.
  - apply H. split; [reflexivity |].
    apply (proj1 (bool_decide_eq_true _)). vm_compute. reflexivity.
  - intros Hin. apply H in Hin as [Hw _]. discriminate Hw.
Defined.

(** [validate_variant_echo] on an artifact that exits with status 1, on an
    artifact whose output cannot be read, and on a value other than
    [auto]. *)
Lemma validate_variant_echo_witness :
  echoed (snd (validate0 (exits_nonzero 1 "boom")))
  = [doctor_message; EmptyString; "Original error:"; "boom"]
  /\ echoed (snd (validate0 (prints "no version here"))) = []
  /\ echoed (snd (validate_variant Json.loads (exits_nonzero 1 "boom")
                    (fun p => p) "/tmp" "3f2a" ctx0 "oss" world0)) = [].
Proof.
  split; [|split].
  - exact (validate_variant_echo Json.loads (exits_nonzero 1 "boom")
             (fun p => p) "/tmp" "3f2a" ctx0 "auto" world0).
  - exact (validate_variant_echo Json.loads (prints "no version here")
             (fun p => p) "/tmp" "3f2a" ctx0 "auto" world0).
  - exact (validate_variant_echo Json.loads (exits_nonzero 1 "boom")
             (fun p => p) "/tmp" "3f2a" ctx0 "oss" world0).
Defined.

(** [validate_variant_mkdir_fails] in a file tree without [/tmp]. *)
Lemma validate_variant_mkdir_fails_witness :
  exists e,
    validate_variant Json.loads (prints ee_output) (fun p => p) "/tmp" "3f2a"
      ctx0 "auto" (mkWorld ∅ []) = (Raise e, mkWorld ∅ [])
    /\ (e = FileExistsError "/tmp/3f2a" \/ e = FileNotFoundError "/tmp/3f2a").
Proof.
  apply (validate_variant_mkdir_fails Json.loads (prints ee_output)
           (fun p => p) "/tmp" "3f2a" ctx0 (mkWorld ∅ [])).
  right. apply (proj1 (bool_decide_eq_false _)). vm_compute. reflexivity.
Defined.

(** [validate_variant_enterprise_iff] on the enterprise output. *)
Lemma validate_variant_enterprise_iff_witness :
  fst (validate0 (prints ee_output)) = Ok "enterprise" <->
  exists output kept d,
    Ok ee_output = Ok output
    /\ drops_noise (splitlines output) kept
    /\ Json.loads (join " " kept) = Some (PyDict d)
    /\ d !! "variant" = Some (PyStr "ee").
Proof.
  assert (Hbase : default "/tmp" (param_workspace_dir ctx0) ∈ fs world0).
  { apply (proj1 (bool_decide_eq_true _)). vm_compute. reflexivity. }
  assert (Hfresh : workspace_of "/tmp" "3f2a" ctx0 ∉ fs world0).
  { apply (proj1 (bool_decide_eq_false _)). vm_compute. reflexivity. }
  exact (validate_variant_enterprise_iff Json.loads (prints ee_output)
           (fun p => p) "/tmp" "3f2a" ctx0 world0 Hbase Hfresh).
Defined.

End ProbeFacts.

(** ** Node reference resolution, beyond the claims *)

Module ResolverFacts.

Import Text TextFacts Cli ResolverSpec.

Section Cluster.

Variables Container Node : Type.
Variable to_dict : Container -> InspectData.
Variable to_node : Container -> Node.
Variable str_upper : string -> string.
Variables masters agents public_agents : string -> list Container.
Variable set_iter : list Container -> list Container.

Abbreviation accepts := (accepted Container to_dict str_upper).
Abbreviation find := (find_node Container Node to_dict to_node str_upper).
Abbreviation members :=
  (Cli.members Container masters agents public_agents).
Abbreviation resolve_in order :=
  (validate_node_reference Container Node to_dict to_node str_upper
     masters agents public_agents order).

Lemma resolve_in_unfold order (ctx : Context) (value : string) :
  resolve_in order ctx value =
    match find (order (members ctx)) value with
    | Some node => Ok node
    | None =>
        Raise (BadParameter
                 (no_such_node_message (param_cluster_id ctx) value))
    end.
Proof. reflexivity. Qed.

(** X10.  A string that some visited container holds in its tuple always
    resolves: the call returns the node of a visited container that holds
    the string. *)
Theorem resolve_complete (ctx : Context) (value : string) (c : Container) :
  c ∈ set_iter (members ctx) ->
  value ∈ accepts c ->
  exists c',
    c' ∈ set_iter (members ctx)
    /\ value ∈ accepts c'
    /\ resolve_in set_iter ctx value = Ok (to_node c').
Proof.
  intros Hc Hv. rewrite resolve_in_unfold.
  destruct (find (set_iter (members ctx)) value) as [node|] eqn:E.
  - apply find_node_Some in E as (pre & c' & post & El & Hv' & _ & ->).
    exists c'. repeat split; auto.
    rewrite El. apply elem_of_app. right. left.
  - exfalso. exact (proj1 (find_node_None _ _ _ _ _ _ _) E c Hc Hv).
Qed.

(** X11.  If all containers that hold the value in their tuples have the
    same node, the answer does not depend on the order in which the set is
    visited: two orders over the same containers give the same result. *)
Theorem resolve_order_independent
    (set_iter' : list Container -> list Container)
    (ctx : Context) (value : string) :
  (forall c, c ∈ set_iter (members ctx) <-> c ∈ set_iter' (members ctx)) ->
  (forall c1 c2,
     c1 ∈ set_iter (members ctx) -> c2 ∈ set_iter (members ctx) ->
     value ∈ accepts c1 -> value ∈ accepts c2 -> to_node c1 = to_node c2) ->
  resolve_in set_iter ctx value = resolve_in set_iter' ctx value.
Proof.
  intros Hsame Huniq. rewrite !resolve_in_unfold.
  destruct (find (set_iter (members ctx)) value) as [node|] eqn:E;
    destruct (find (set_iter' (members ctx)) value) as [node'|] eqn:E';
    try reflexivity.
  - apply find_node_Some in E as (pre & c & post & El & Hv & _ & ->).
    apply find_node_Some in E' as (pre' & c' & post' & El' & Hv' & _ & ->).
    assert (Hc : c ∈ set_iter (members ctx)).
    { rewrite El. apply elem_of_app. right. left. }
    assert (Hc' : c' ∈ set_iter (members ctx)).
    { apply Hsame. rewrite El'. apply elem_of_app. right. left. }
    now rewrite (Huniq c c' Hc Hc' Hv Hv').
  - exfalso.
    apply find_node_Some in E as (pre & c & post & El & Hv & _ & _).
    refine (proj1 (find_node_None _ _ _ _ _ _ _) E' c _ Hv).
    apply Hsame. rewrite El. apply elem_of_app. right. left.
  - exfalso.
    apply find_node_Some in E' as (pre & c & post & El & Hv & _ & _).
    refine (proj1 (find_node_None _ _ _ _ _ _ _) E c _ Hv).
    apply Hsame. rewrite El. apply elem_of_app. right. left.
Qed.

End Cluster.

Import Examples Examples3.

(** [resolve_complete] on the container name of the one master. *)
Lemma resolve_complete_witness :
  exists c',
    c' ∈ [master0]
    /\ "dcos-e2e-default-master-0"
       ∈ accepted InspectData (fun c => c) ascii_upper c'
    /\ resolve0 "dcos-e2e-default-master-0"
       = Ok (ip_address c', docker_container_id c').
Proof.
  apply (resolve_complete InspectData (string * string) (fun c => c)
           (fun c => (ip_address c, docker_container_id c)) ascii_upper
           (fun _ => [master0]) (fun _ => []) (fun _ => []) (fun l => l)
           ctx0 "dcos-e2e-default-master-0" master0).
  - left.
  - apply (proj1 (bool_decide_eq_true _)). vm_compute. reflexivity.
Defined.

(** [resolve_order_independent] on the cluster of a master, an agent and
    a public agent, visited master first and public agent first: the IP
    address of the agent resolves alike. *)
Lemma resolve_order_independent_witness :
  (fun l : list InspectData => l) [master0; agent0; public_agent0]
  <> List.rev [master0; agent0; public_agent0]
  /\ resolve3 (fun l => l) "10.0.0.6" = resolve3 (@List.rev _) "10.0.0.6".
Proof.
  split; [discriminate |].
  apply (resolve_order_independent InspectData (string * string) (fun c => c)
           (fun c => (ip_address c, docker_container_id c)) ascii_upper
           (fun _ => [master0]) (fun _ => [agent0]) (fun _ => [public_agent0])
           (fun l => l) (@List.rev _) ctx0 "10.0.0.6").
  - intros c. cbn. rewrite !elem_of_cons, !elem_of_nil. tauto.
  - assert (Honly : forall c,
              c ∈ [master0; agent0; public_agent0] ->
              "10.0.0.6" ∈ accepted InspectData (fun c => c) ascii_upper c ->
              c = agent0).
    { intros c Hc Ha.
      rewrite !elem_of_cons, elem_of_nil in Hc.
      destruct Hc as [->|[->|[->|[]]]]; [exfalso | reflexivity | exfalso];
        revert Ha; apply (proj1 (bool_decide_eq_false _));
        vm_compute; reflexivity. }
    intros c1 c2 H1 H2 A1 A2.
    now rewrite (Honly c1 H1 A1), (Honly c2 H2 A2).
Defined.

End ResolverFacts.

(** ** The other validators *)

Module ValidatorFacts.

Import Text TextFacts Validators Words.

(** *** Splitting at a separator *)

Lemma split_not_nil (sep : ascii) (s : string) : split sep s <> [].
Proof.
  induction s as [|c s IH]; simpl; [discriminate |].
  destruct (Ascii.eqb c sep); [discriminate |].
  destruct (split sep s); [contradiction | discriminate].
Qed.

Lemma join_char_cons (sep : ascii) (piece : string) (pieces : list string) :
  pieces <> [] ->
  join_char sep (piece :: pieces)
  = piece ++ String sep (join_char sep pieces).
Proof.
  intros H. destruct pieces as [|p ps]; [contradiction |]. reflexivity.
Qed.

(** Joining the pieces with the separator gives the text back. *)
Lemma split_join (sep : ascii) (s : string) :
  join_char sep (split sep s) = s.
Proof.
  induction s as [|c s IH]; [reflexivity |].
  simpl. pose proof (split_not_nil sep s) as Hne.
  destruct (Ascii.eqb_spec c sep) as [->|Hc].
  - rewrite (join_char_cons _ _ _ Hne), IH. reflexivity.
  - destruct (split sep s) as [|p ps]; [contradiction |].
    destruct ps as [|p' ps].
    + unfold join_char in *. simpl in *. now rewrite IH.
    + rewrite join_char_cons by discriminate.
      rewrite join_char_cons in IH by discriminate.
      push_app. now rewrite IH.
Qed.

(** No piece holds the separator. *)
Lemma split_free (sep : ascii) (s : string) :
  Forall (fun piece => free_of sep piece = true) (split sep s).
Proof.
  induction s as [|c s IH]; simpl; [repeat constructor |].
  destruct (Ascii.eqb c sep) eqn:E.
  - constructor; [reflexivity | exact IH].
  - destruct (split sep s) as [|p ps].
    { repeat constructor. simpl. now rewrite E. }
    inversion IH as [|? ? Hp Hps]; subst.
    constructor; [simpl; now rewrite E, Hp | exact Hps].
Qed.

Lemma split_free_piece (sep : ascii) (piece rest : string) :
  free_of sep piece = true ->
  split sep (piece ++ String sep rest) = piece :: split sep rest.
Proof.
  induction piece as [|c piece IH]; intros H; push_app.
  - simpl. now rewrite Ascii.eqb_refl.
  - simpl in H. apply andb_true_iff in H as [Hc Hp].
    apply negb_true_iff in Hc. simpl. rewrite Hc. now rewrite (IH Hp).
Qed.

Lemma split_free_whole (sep : ascii) (s : string) :
  free_of sep s = true -> split sep s = [s].
Proof.
  induction s as [|c s IH]; intros H; [reflexivity |].
  simpl in H. apply andb_true_iff in H as [Hc Hs].
  apply negb_true_iff in Hc. simpl. rewrite Hc. now rewrite (IH Hs).
Qed.

(** Pieces without separator, joined, split into themselves. *)
Lemma split_of_join (sep : ascii) (pieces : list string) :
  pieces <> [] ->
  Forall (fun piece => free_of sep piece = true) pieces ->
  split sep (join_char sep pieces) = pieces.
Proof.
  induction pieces as [|p ps IH]; [contradiction |].
  intros _ Hf. inversion Hf as [|? ? Hp Hps]; subst.
  destruct ps as [|p' ps].
  - unfold join_char. simpl. now apply split_free_whole.
  - rewrite join_char_cons by discriminate.
    rewrite (split_free_piece _ _ _ Hp). f_equal.
    apply IH; [discriminate | exact Hps].
Qed.

(** The pieces of a text are the one list of separator-free texts that
    joins to it. *)
Lemma split_spec (sep : ascii) (s : string) (pieces : list string) :
  split sep s = pieces <->
  pieces <> []
  /\ Forall (fun piece => free_of sep piece = true) pieces
  /\ join_char sep pieces = s.
Proof.
  split.
  - intros <-. split; [apply split_not_nil |].
    split; [apply split_free | apply split_join].
  - intros (Hne & Hf & <-). now apply split_of_join.
Qed.

Lemma split_one (sep : ascii) (s a : string) :
  split sep s = [a] <-> s = a /\ free_of sep a = true.
Proof.
  rewrite split_spec. unfold join_char. simpl. split.
  - intros (_ & Hf & <-). inversion Hf; subst. auto.
  - intros (-> & Hf). repeat split; [discriminate | repeat constructor; auto].
Qed.

Lemma split_two (sep : ascii) (s a b : string) :
  split sep s = [a; b] <->
  s = a ++ String sep b /\ free_of sep a = true /\ free_of sep b = true.
Proof.
  rewrite split_spec. unfold join_char. simpl. split.
  - intros (_ & Hf & <-).
    inversion Hf as [|? ? Ha Hf']; subst. inversion Hf'; subst. auto.
  - intros (-> & Ha & Hb).
    repeat split; [discriminate | repeat constructor; auto].
Qed.

Lemma split_three (sep : ascii) (s a b c : string) :
  split sep s = [a; b; c] <->
  s = a ++ String sep (b ++ String sep c)
  /\ free_of sep a = true /\ free_of sep b = true /\ free_of sep c = true.
Proof.
  rewrite split_spec. unfold join_char. simpl. split.
  - intros (_ & Hf & <-).
    inversion Hf as [|? ? Ha Hf']; subst.
    inversion Hf' as [|? ? Hb Hf'']; subst. inversion Hf''; subst. auto.
  - intros (-> & Ha & Hb & Hc).
    repeat split; [discriminate | repeat constructor; auto].
Qed.

(** *** Splitting at the first separator *)

Lemma split_once_free (sep : ascii) (s : string) :
  free_of sep s = true -> split_once sep s = [s].
Proof.
  induction s as [|c s IH]; intros H; [reflexivity |].
  simpl in H. apply andb_true_iff in H as [Hc Hs].
  apply negb_true_iff in Hc. simpl. rewrite Hc. now rewrite (IH Hs).
Qed.

Lemma split_once_first (sep : ascii) (key val : string) :
  free_of sep key = true ->
  split_once sep (key ++ String sep val) = [key; val].
Proof.
  induction key as [|c key IH]; intros H; push_app.
  - simpl. now rewrite Ascii.eqb_refl.
  - simpl in H. apply andb_true_iff in H as [Hc Hk].
    apply negb_true_iff in Hc. simpl. rewrite Hc. now rewrite (IH Hk).
Qed.

(** A text either holds no separator, or is a separator-free key, the
    separator and a value. *)
Lemma split_once_cases (sep : ascii) (s : string) :
  (free_of sep s = true /\ split_once sep s = [s])
  \/ exists key val,
       s = key ++ String sep val /\ free_of sep key = true
       /\ split_once sep s = [key; val].
Proof.
  induction s as [|c s IH]; [left; auto |].
  destruct (Ascii.eqb_spec c sep) as [->|Hc].
  - right. exists EmptyString, s. repeat split.
    simpl. now rewrite Ascii.eqb_refl.
  - apply Ascii.eqb_neq in Hc.
    destruct IH as [[Hf E]|(key & val & -> & Hk & E)].
    + left. simpl. rewrite Hc, Hf, E. auto.
    + right. exists (String c key), val. push_app.
      repeat split; [simpl; now rewrite Hc, Hk |].
      change (String c (key ++ String sep val))
        with (String c key ++ String sep val).
      apply split_once_first. simpl. now rewrite Hc, Hk.
Qed.

Lemma free_of_occurs (c : ascii) (s : string) :
  free_of c s = false <-> occurs_in (String c EmptyString) s.
Proof.
  induction s as [|a s IH]; simpl.
  - split; [discriminate |]. intros (x & y & H).
    destruct x; push_app; discriminate.
  - destruct (Ascii.eqb_spec a c) as [->|Hne]; simpl.
    + split; [intros _ | reflexivity]. now exists EmptyString, s.
    + rewrite IH. split.
      * intros (x & y & ->). exists (String a x), y. now push_app.
      * intros (x & y & H). destruct x as [|a' x]; push_app.
        -- injection H as H _. congruence.
        -- injection H as _ H. now exists x, y.
Qed.

(** *** Volume definitions *)

Lemma mount_of_describes (volume_definition : string) (mount : Mount) :
  mount_of volume_definition = Ok mount <-> describes volume_definition mount.
Proof.
  unfold mount_of, describes. split.
  - destruct (split ":" volume_definition) as [|a [|b [|c [|x xs]]]] eqn:E;
      try discriminate.
    + intros H. injection H as <-. apply split_one in E as [-> Ha].
      simpl. auto.
    + intros H. injection H as <-. apply split_two in E as (-> & Ha & Hb).
      simpl. repeat split; auto.
    + apply split_three in E as (-> & Ha & Hb & Hc).
      destruct (String.eqb_spec c "ro") as [->|Hro].
      * intros H. injection H as <-. simpl. repeat split; auto.
      * destruct (String.eqb_spec c "rw") as [->|Hrw]; [|discriminate].
        intros H. injection H as <-. simpl. repeat split; auto.
  - destruct mount as [[source|] target ty ro]; simpl.
    + intros (-> & Ht & Hs & [[-> ->]|[[-> ->]|[-> ->]]]).
      * now rewrite (proj2 (split_two ":" _ source target)).
      * now rewrite (proj2 (split_three ":" _ source target "rw")).
      * now rewrite (proj2 (split_three ":" _ source target "ro")).
    + intros (-> & Ht & -> & ->).
      now rewrite (proj2 (split_one ":" _ target)).
Qed.

Lemma volumes_loop_spec (value : list string) (mounts out : list Mount) :
  volumes_loop value mounts = Ok out <->
  exists new, out = (mounts ++ new)%list /\ Forall2 describes value new.
Proof.
  revert mounts. induction value as [|d value IH]; intros mounts; simpl.
  - split.
    + intros H. injection H as <-. exists []. split; [|constructor].
      now rewrite List.app_nil_r.
    + intros (new & -> & H). inversion H. now rewrite List.app_nil_r.
  - destruct (mount_of d) as [m|e] eqn:E.
    + apply mount_of_describes in E. rewrite IH. split.
      * intros (new & -> & H). exists (m :: new).
        split; [now rewrite <- List.app_assoc | now constructor].
      * intros (new & -> & H).
        inversion H as [|? m' ? new' Hd Hrest]; subst.
        assert (m' = m) as ->.
        { apply mount_of_describes in Hd, E. congruence. }
        exists new'. split; [now rewrite <- List.app_assoc | exact Hrest].
    + split; [discriminate |]. intros (new & _ & H).
      inversion H as [|? m' ? new' Hd Hrest]; subst.
      apply mount_of_describes in Hd. congruence.
Qed.

(** X15.  [validate_volumes] returns mounts exactly for definitions of the
    forms [target], [source:target], [source:target:rw] and
    [source:target:ro]: one bind mount per definition, in the order given,
    with the source and the target as written, read-only for the mode [ro]
    alone. *)
Theorem validate_volumes_spec (value : list string) (mounts : list Mount) :
  validate_volumes value = Ok mounts <-> Forall2 describes value mounts.
Proof.
  unfold validate_volumes. rewrite volumes_loop_spec. split.
  - intros (new & -> & H). exact H.
  - intros H. now exists mounts.
Qed.

(** *** Path pairs *)

Section Paths.

Variable Path : Type.
Variable mkPath : string -> Path.
Variable Path_str : Path -> string.
Variable Path_exists : Path -> bool.
Variable Path_is_absolute : Path -> bool.

Abbreviation names := (names_pair mkPath Path_exists Path_is_absolute).
Abbreviation pair_loop :=
  (path_pair_loop Path mkPath Path_str Path_exists Path_is_absolute).

Lemma path_pair_step (path_pair : string) (rest : list string)
    (pairs : list (Path * Path)) :
  (exists pair,
     names path_pair pair
     /\ pair_loop (path_pair :: rest) pairs
        = pair_loop rest (pairs ++ [pair])%list)
  \/ ((forall pair, ~ names path_pair pair)
      /\ is_ok (pair_loop (path_pair :: rest) pairs) = false).
Proof.
  simpl.
  destruct (split ":" path_pair) as [|a [|b [|c l]]] eqn:E; simpl.
  - right. split; [|reflexivity].
    intros pair (x & y & -> & Hx & Hy & _).
    rewrite (proj2 (split_two ":" _ x y)) in E by auto. discriminate.
  - right. split; [|reflexivity].
    intros pair (x & y & -> & Hx & Hy & _).
    rewrite (proj2 (split_two ":" _ x y)) in E by auto. discriminate.
  - pose proof E as E'. apply split_two in E' as (-> & Ha & Hb).
    destruct (Path_exists (mkPath a)) eqn:Ex; simpl.
    + destruct (Path_is_absolute (mkPath b)) eqn:Eb; simpl.
      * left. exists (mkPath a, mkPath b). split; [|reflexivity].
        exists a, b. repeat split; auto.
      * right. split; [|reflexivity].
        intros pair (x & y & Hxy & Hx & Hy & _ & _ & Hab).
        rewrite (proj2 (split_two ":" _ x y)) in E by auto.
        injection E as -> ->. congruence.
    + right. split; [|reflexivity].
      intros pair (x & y & Hxy & Hx & Hy & _ & Hex & _).
      rewrite (proj2 (split_two ":" _ x y)) in E by auto.
      injection E as -> ->. congruence.
  - right. split; [|reflexivity].
    intros pair (x & y & -> & Hx & Hy & _).
    rewrite (proj2 (split_two ":" _ x y)) in E by auto. discriminate.
Qed.

Lemma names_pair_functional (path_pair : string) (p1 p2 : Path * Path) :
  names path_pair p1 -> names path_pair p2 -> p1 = p2.
Proof.
  intros (x & y & -> & Hx & Hy & -> & _) (x' & y' & E & Hx' & Hy' & -> & _).
  assert (E' : x ++ String ":" y = x' ++ String ":" y') by exact E.
  assert (H1 : split ":" (x ++ String ":" y) = [x; y])
    by (apply split_two; auto).
  assert (H2 : split ":" (x' ++ String ":" y') = [x'; y'])
    by (apply split_two; auto).
  rewrite E' in H1. rewrite H1 in H2. now injection H2 as -> ->.
Qed.

Lemma path_pair_loop_spec (value : list string)
    (pairs out : list (Path * Path)) :
  pair_loop value pairs = Ok out <->
  exists new, out = (pairs ++ new)%list /\ Forall2 names value new.
Proof.
  revert pairs. induction value as [|d value IH]; intros pairs.
  - simpl. split.
    + intros H. injection H as <-. exists []. split; [|constructor].
      now rewrite List.app_nil_r.
    + intros (new & -> & H). inversion H. now rewrite List.app_nil_r.
  - destruct (path_pair_step d value pairs) as [(pair & Hn & ->)|[Hno Hfail]].
    + rewrite IH. split.
      * intros (new & -> & H). exists (pair :: new).
        split; [now rewrite <- List.app_assoc | now constructor].
      * intros (new & -> & H).
        inversion H as [|? pair' ? new' Hd Hrest]; subst.
        rewrite (names_pair_functional d pair' pair Hd Hn).
        exists new'. split; [now rewrite <- List.app_assoc | exact Hrest].
    + split.
      * intros H. rewrite H in Hfail. discriminate.
      * intros (new & _ & H).
        inversion H as [|? pair' ? new' Hd Hrest]; subst.
        exfalso. exact (Hno pair' Hd).
Qed.

(** X16.  [validate_path_pair] returns pairs exactly when every definition
    is a local part and a remote part with one colon between them, the
    local path exists and the remote path is absolute: one pair per
    definition, in the order given.  Without a value it returns the empty
    list. *)
Theorem validate_path_pair_spec (value : option (list string))
    (pairs : list (Path * Path)) :
  validate_path_pair Path mkPath Path_str Path_exists Path_is_absolute value
  = Ok pairs
  <-> Forall2 names (default [] value) pairs.
Proof.
  destruct value as [definitions|]; simpl.
  - rewrite path_pair_loop_spec. split.
    + intros (new & -> & H). exact H.
    + intros H. now exists pairs.
  - split.
    + intros H. injection H as <-. constructor.
    + intros H. inversion H. reflexivity.
Qed.

End Paths.

(** *** Environment variables *)

Lemma key_value_inj (key key' val val' : string) :
  free_of "=" key = true -> free_of "=" key' = true ->
  key ++ "=" ++ val = key' ++ "=" ++ val' -> key = key' /\ val = val'.
Proof.
  intros Hk Hk' E.
  assert (E' : key ++ String "=" val = key' ++ String "=" val') by exact E.
  pose proof (split_once_first "=" key val Hk) as H1.
  pose proof (split_once_first "=" key' val' Hk') as H2.
  rewrite E' in H1. rewrite H1 in H2. now injection H2 as -> ->.
Qed.

(** One turn of the loop: a definition without equals sign ends it with
    the error, any other definition sets its key. *)
Lemma environment_step (definition : string) :
  (~ occurs_in "=" definition
   /\ forall rest env,
        environment_loop (definition :: rest) env
        = Raise (BadParameter (no_key_value_message definition)))
  \/ (occurs_in "=" definition
      /\ exists key val,
           definition = key ++ "=" ++ val /\ free_of "=" key = true
           /\ forall rest env,
                environment_loop (definition :: rest) env
                = environment_loop rest (<[key := val]> env)).
Proof.
  destruct (split_once_cases "=" definition)
    as [[Hf E]|(key & val & Hd & Hk & E)].
  - left. split.
    + intros H. apply free_of_occurs in H. congruence.
    + intros rest env. simpl. now rewrite E.
  - right. split.
    + apply free_of_occurs.
      destruct (free_of "=" definition) eqn:Hf; [|reflexivity].
      rewrite (split_once_free _ _ Hf) in E. discriminate.
    + exists key, val. repeat split; auto.
      intros rest env. simpl. now rewrite E.
Qed.

Lemma environment_loop_ok (value : list string) (env : gmap string string) :
  is_ok (environment_loop value env) = true
  <-> Forall (occurs_in "=") value.
Proof.
  revert env. induction value as [|d value IH]; intros env.
  - simpl. split; [constructor | reflexivity].
  - destruct (environment_step d) as [[Hno E]|(Hocc & key & val & _ & _ & E)];
      rewrite E.
    + split; [discriminate |]. intros H. inversion H; subst. contradiction.
    + rewrite IH. split; [now constructor |].
      intros H. now inversion H.
Qed.

Lemma environment_loop_raises (value : list string)
    (env : gmap string string) (e : exn) :
  environment_loop value env = Raise e <->
  exists before definition after,
    value = (before ++ definition :: after)%list
    /\ Forall (occurs_in "=") before
    /\ ~ occurs_in "=" definition
    /\ e = BadParameter (no_key_value_message definition).
Proof.
  revert env. induction value as [|d value IH]; intros env.
  - simpl. split; [discriminate |].
    intros (before & x & after & E & _). destruct before; discriminate.
  - destruct (environment_step d) as [[Hno E]|(Hocc & key & val & _ & _ & E)];
      rewrite E.
    + split.
      * intros H. injection H as <-. exists [], d, value.
        repeat split; auto.
      * intros (before & x & after & El & Hb & Hx & ->).
        destruct before as [|b before]; simpl in El; injection El as -> ->.
        -- reflexivity.
        -- inversion Hb; subst. contradiction.
    + rewrite IH. split.
      * intros (before & x & after & -> & Hb & Hx & ->).
        exists (d :: before), x, after. repeat split; auto.
      * intros (before & x & after & El & Hb & Hx & ->).
        destruct before as [|b before]; simpl in El; injection El as -> ->.
        -- contradiction.
        -- exists before, x, after. inversion Hb; subst. repeat split; auto.
Qed.

(** X13.  [validate_environment_variable] returns an environment exactly
    when every definition holds an equals sign; otherwise it raises the
    error that quotes the first definition without one. *)
Theorem environment_result (value : list string) :
  (is_ok (validate_environment_variable value) = true
   <-> Forall (occurs_in "=") value)
  /\ forall e,
       validate_environment_variable value = Raise e <->
       exists before definition after,
         value = (before ++ definition :: after)%list
         /\ Forall (occurs_in "=") before
         /\ ~ occurs_in "=" definition
         /\ e = BadParameter (no_key_value_message definition).
Proof.
  split; [apply environment_loop_ok | intros e; apply environment_loop_raises].
Qed.

Lemma environment_loop_lookup (value : list string)
    (env0 env : gmap string string) (key val : string) :
  environment_loop value env0 = Ok env ->
  env !! key = Some val <->
  (exists before after,
     value = (before ++ (key ++ "=" ++ val)%string :: after)%list
     /\ free_of "=" key = true
     /\ Forall (fun d => ~ sets_key key d) after)
  \/ (env0 !! key = Some val /\ Forall (fun d => ~ sets_key key d) value).
Proof.
  revert env0. induction value as [|d value IH]; intros env0.
  - simpl. intros H. injection H as <-. split.
    + intros H. right. split; [exact H | constructor].
    + intros [(before & after & E & _)|[H _]]; [|exact H].
      destruct before; discriminate.
  - destruct (environment_step d) as [[_ E]|(_ & k0 & v0 & Hd & Hk0 & E)];
      rewrite E; [discriminate |].
    intros Hloop. rewrite (IH _ Hloop). clear IH Hloop E. split.
    + intros [(before & after & -> & Hk & Ha)|[Hl Ha]].
      * left. exists (d :: before), after. auto.
      * destruct (decide (k0 = key)) as [->|Hne].
        -- rewrite lookup_insert_eq in Hl. injection Hl as ->.
           left. exists [], value. subst d. auto.
        -- rewrite lookup_insert_ne in Hl by exact Hne.
           right. split; [exact Hl |]. constructor; [|exact Ha].
           intros [Hk (val' & Hd')]. rewrite Hd in Hd'.
           apply (key_value_inj _ _ _ _ Hk0 Hk) in Hd' as [? _]. contradiction.
    + intros [(before & after & El & Hk & Ha)|[Hl Ha]].
      * destruct before as [|b before]; simpl in El; injection El as E1 E2.
        -- rewrite Hd in E1.
           apply (key_value_inj _ _ _ _ Hk0 Hk) in E1 as [-> ->]. subst value.
           right. split; [apply lookup_insert_eq | exact Ha].
        -- left. exists before, after. subst value. auto.
      * inversion Ha as [|? ? Hnd Hrest]; subst.
        right. split; [|exact Hrest].
        rewrite lookup_insert_ne; [exact Hl |].
        intros ->. apply Hnd. split; [exact Hk0 | now exists v0].
Qed.

(** X14.  In the environment [validate_environment_variable] returns, a
    variable has the value of the last definition that sets it: the text
    before the first equals sign of a definition is the key, the whole rest,
    further equals signs included, is the value, and a later definition of
    the same key replaces an earlier one. *)
Theorem environment_bindings (value : list string)
    (env : gmap string string) (key val : string) :
  validate_environment_variable value = Ok env ->
  env !! key = Some val <->
  exists before after,
    value = (before ++ (key ++ "=" ++ val)%string :: after)%list
    /\ free_of "=" key = true
    /\ Forall (fun d => forall val', d <> key ++ "=" ++ val') after.
Proof.
  intros H. rewrite (environment_loop_lookup value ∅ env key val H). split.
  - intros [(before & after & -> & Hk & Ha)|[Hl _]].
    + exists before, after. repeat split; auto.
      eapply Forall_impl; [exact Ha |]. intros d Hd val' ->.
      apply Hd. split; [exact Hk | now exists val'].
    + rewrite lookup_empty in Hl. discriminate.
  - intros (before & after & -> & Hk & Ha). left.
    exists before, after. repeat split; auto.
    eapply Forall_impl; [exact Ha |]. intros d Hd [_ (val' & ->)].
    now apply (Hd val').
Qed.

(** *** Cluster ids *)

Section Clusters.

Variable existing_cluster_ids : gset string.

Abbreviation new_id := (validate_cluster_id existing_cluster_ids).
Abbreviation known_id := (validate_cluster_exists existing_cluster_ids).

(** X12.  For one and the same id, the validator for new clusters and the
    validator for existing clusters never both accept: each returns the id
    as given, the first only if no cluster has it, the second only if one
    has; an id that a cluster has is refused as existing whatever its form.
    An id of the form the pattern describes is accepted by exactly one of
    the two. *)
Theorem cluster_id_exclusive (s : string) :
  (forall r, new_id (Some s) = Ok r ->
     r = s /\ (s ∉ existing_cluster_ids)
     /\ is_ok (known_id (Some s)) = false)
  /\ (forall r, known_id (Some s) = Ok r ->
        r = s /\ (s ∈ existing_cluster_ids)
        /\ new_id (Some s)
           = Raise (BadParameter
                      (q "A cluster with the id '" ++ s
                       ++ q "' already exists")))
  /\ (cluster_id_fullmatch s = true ->
      (is_ok (new_id (Some s)) = true <-> is_ok (known_id (Some s)) = false)).
Proof.
  unfold validate_cluster_id, validate_cluster_exists, is_existing, py_str.
  repeat split.
  - destruct (bool_decide _); [discriminate |].
    destruct (cluster_id_fullmatch s); simpl in *; congruence.
  - case_bool_decide as Hs; [discriminate | exact Hs].
  - case_bool_decide as Hs; [discriminate | reflexivity].
  - case_bool_decide as Hs; simpl in *; congruence.
  - case_bool_decide as Hs; [exact Hs | discriminate].
  - case_bool_decide as Hs; [reflexivity | discriminate].
  - case_bool_decide as Hs; [discriminate | reflexivity].
  - case_bool_decide as Hs; [discriminate |].
    intros _. rewrite H. reflexivity.
Qed.

End Clusters.

(** *** Worked inputs *)

Example volumes_example :
  validate_volumes ["/data:/mnt/data:ro"; "/var/run"; "/src:/dst"]
  = Ok [ mkMount (Some "/data") "/mnt/data" "bind" true;
         mkMount None "/var/run" "bind" false;
         mkMount (Some "/src") "/dst" "bind" false ].
Proof. vm_compute. reflexivity. Qed.

Example volumes_bad_mode :
  validate_volumes ["/data:/mnt/data:rx"]
  = Raise (BadParameter
      (q ("Mode in '/data:/mnt/data:rx' is 'rx'. "
          ++ "If given, the mode must be one of 'ro', 'rw'."))).
Proof. vm_compute. reflexivity. Qed.

Example cluster_id_examples :
  validate_cluster_id {[ "default" ]} (Some "my-cluster.1") = Ok "my-cluster.1"
  /\ is_ok (validate_cluster_id {[ "default" ]} (Some "default")) = false
  /\ is_ok (validate_cluster_id {[ "default" ]} (Some "")) = false
  /\ is_ok (validate_cluster_id {[ "default" ]} (Some "-x")) = false
  /\ validate_cluster_exists {[ "default" ]} None = Ok "default".
Proof. repeat split; vm_compute; reflexivity. Qed.

(** [environment_bindings] on three definitions, two of them for [A]. *)
Lemma environment_bindings_witness :
  validate_environment_variable ["A=1"; "B=x=y"; "A=2"]
  = Ok (<["A" := "2"]> (<["B" := "x=y"]> (<["A" := "1"]> ∅)))
  /\ (<["A" := "2"]> (<["B" := "x=y"]> (<["A" := "1"]> ∅))
      : gmap string string) !! "A" = Some "2".
Proof.
  assert (E : validate_environment_variable ["A=1"; "B=x=y"; "A=2"]
              = Ok (<["A" := "2"]> (<["B" := "x=y"]> (<["A" := "1"]> ∅))))
    by reflexivity.
  split; [exact E |].
  apply (proj2 (environment_bindings _ _ "A" "2" E)).
  exists ["A=1"; "B=x=y"], []. repeat split. constructor.
Defined.

(** [cluster_id_exclusive] on the id of the one existing cluster. *)
Lemma cluster_id_exclusive_witness :
  is_ok (validate_cluster_id {[ "default" ]} (Some "default")) = true
  <-> is_ok (validate_cluster_exists {[ "default" ]} (Some "default")) = false.
Proof.
  exact (proj2 (proj2 (cluster_id_exclusive {[ "default" ]} "default"))
           eq_refl).
Defined.

End ValidatorFacts.
